(** * Architecture diagram scripts

    A shallow embedding of the two plotting scripts
    [analysis/current-architecture-diagram.py] and
    [analysis/proposed-architecture-diagram.py].

    Both scripts are straight-line programs that talk to a plotting
    backend: they open a figure, set the data range of its axes, add
    texts, rounded boxes and connectors to the axes, and finally save
    the figure to a file, close it and print one line.  The scripts are
    embedded as computations in a small state-and-exception monad over
    a [World] that holds the backend's figures, the file system and the
    standard output.

    Decimal literals of the scripts are read as exact rationals, so
    [x - 0.4] is the rational difference. *)

From Stdlib Require Import QArith Qfield Lqa Lia List String Ascii Bool ZArith.
Import ListNotations.

Open Scope string_scope.
Open Scope Q_scope.

(** ** Points and rectangles *)

Definition Point : Type := (Q * Q)%type.

Definition peq (p q : Point) : Prop := fst p == fst q /\ snd p == snd q.

(** A rectangle by its lower-left corner and its extent. *)
Record Rect : Type := mkRect { rx : Q; ry : Q; rw : Q; rh : Q }.

Definition rect_center (r : Rect) : Point :=
  (rx r + rw r / 2, ry r + rh r / 2).

Definition rect_within (xlo xhi ylo yhi : Q) (r : Rect) : bool :=
  Qle_bool xlo (rx r) && Qle_bool (rx r + rw r) xhi &&
  Qle_bool ylo (ry r) && Qle_bool (ry r + rh r) yhi.

Definition rect_inside (inner outer : Rect) : bool :=
  rect_within (rx outer) (rx outer + rw outer)
              (ry outer) (ry outer + rh outer) inner.

Definition point_within (xlo xhi ylo yhi : Q) (p : Point) : bool :=
  Qle_bool xlo (fst p) && Qle_bool (fst p) xhi &&
  Qle_bool ylo (snd p) && Qle_bool (snd p) yhi.

(** ** Keyword arguments

    The scripts style every artist through keyword arguments.  A call
    is recorded with the keyword list it was given; the getters below
    resolve a property to the last value given for it, or to the
    backend's default when the call does not mention it. *)

(** [boxstyle="round,pad=0.1"] is the style [round] with padding 0.1. *)
Record BoxStyle : Type := mkBoxStyle { bs_name : string; bs_pad : Q }.

Definition round_pad (p : Q) : BoxStyle := mkBoxStyle "round" p.

(** [bbox=dict(boxstyle=..., facecolor=..., alpha=...)], the box drawn
    around a text; [alpha] may be left out. *)
Record BBoxDict : Type := dict
  { bbox_boxstyle : BoxStyle; bbox_facecolor : string; bbox_alpha : option Q }.

Inductive Kw : Type :=
| figsize (v : Q * Q)
| fontsize (v : Q)
| fontweight (v : string)
| ha (v : string)
| va (v : string)
| color (v : string)
| style (v : string)
| bbox (v : BBoxDict)
| boxstyle (v : BoxStyle)
| facecolor (v : string)
| edgecolor (v : string)
| linewidth (v : Q)
| alpha (v : Q)
| arrowstyle (v : string)
| connectionstyle (name : string) (rad : Q)
| shrinkA (v : Q)
| shrinkB (v : Q)
| mutation_scale (v : Q)
| fc (v : string)
| ec (v : string)
| linestyle (v : string)
| zorder (v : Q)
| dpi (v : Q)
| bbox_inches (v : string).

(** The last value a keyword list gives for a property ([None] when the
    list does not mention it). *)
Definition kw_last {A : Type} (sel : Kw -> option A) (kws : list Kw) : option A :=
  fold_left (fun acc k => match sel k with Some v => Some v | None => acc end)
            kws None.

Definition kw_get {A : Type} (sel : Kw -> option A) (kws : list Kw) (dflt : A) : A :=
  match kw_last sel kws with Some v => v | None => dflt end.

(** ** Artists *)

Record text : Type := Text
  { text_x : Q; text_y : Q; text_s : string; text_kw : list Kw }.

Record fancy_bbox_patch : Type := FancyBboxPatch
  { xy : Point; width : Q; height : Q; box_kw : list Kw }.

Record connection_patch : Type := ConnectionPatch
  { xyA : Point; xyB : Point; coordsA : string; coordsB : string;
    conn_kw : list Kw }.

Inductive Artist : Type :=
| TextArtist (t : text)
| BoxArtist (b : fancy_bbox_patch)
| ConnArtist (c : connection_patch).

(** *** Text properties *)

Definition get_ha (t : text) : string :=
  kw_get (fun k => match k with ha v => Some v | _ => None end) (text_kw t) "left".

Definition get_va (t : text) : string :=
  kw_get (fun k => match k with va v => Some v | _ => None end) (text_kw t) "baseline".

Definition get_fontsize (t : text) : Q :=
  kw_get (fun k => match k with fontsize v => Some v | _ => None end) (text_kw t) 10.

Definition get_fontweight (t : text) : string :=
  kw_get (fun k => match k with fontweight v => Some v | _ => None end)
         (text_kw t) "normal".

Definition get_style (t : text) : string :=
  kw_get (fun k => match k with style v => Some v | _ => None end) (text_kw t) "normal".

Definition get_text_color (t : text) : string :=
  kw_get (fun k => match k with color v => Some v | _ => None end) (text_kw t) "black".

(** The box drawn around a text, if one was asked for. *)
Definition get_bbox (t : text) : option BBoxDict :=
  kw_last (fun k => match k with bbox v => Some v | _ => None end) (text_kw t).

Definition text_anchor (t : text) : Point := (text_x t, text_y t).

(** *** Patch properties, shared by boxes and connectors *)

(** [fc] and [ec] abbreviate [facecolor] and [edgecolor]; [color] sets both. *)
Definition kw_facecolor (kws : list Kw) : option string :=
  kw_last (fun k => match k with
                    | facecolor v | fc v | color v => Some v
                    | _ => None end) kws.

Definition kw_edgecolor (kws : list Kw) : option string :=
  kw_last (fun k => match k with
                    | edgecolor v | ec v | color v => Some v
                    | _ => None end) kws.

Definition kw_linewidth (kws : list Kw) : option Q :=
  kw_last (fun k => match k with linewidth v => Some v | _ => None end) kws.

(** [None] stands for fully opaque. *)
Definition kw_alpha (kws : list Kw) : option Q :=
  kw_last (fun k => match k with alpha v => Some v | _ => None end) kws.

Definition kw_linestyle (kws : list Kw) : string :=
  kw_get (fun k => match k with linestyle v => Some v | _ => None end) kws "-".

(** *** Rounded boxes *)

Definition get_boxstyle (b : fancy_bbox_patch) : BoxStyle :=
  kw_get (fun k => match k with boxstyle v => Some v | _ => None end)
         (box_kw b) (mkBoxStyle "round" 0.3).

(** The rectangle a box was asked for: [xy] is its lower-left corner. *)
Definition box_rect (b : fancy_bbox_patch) : Rect :=
  mkRect (fst (xy b)) (snd (xy b)) (width b) (height b).

(** The outline that is drawn: the box style pads the rectangle on
    every side. *)
Definition box_outline (b : fancy_bbox_patch) : Rect :=
  let p := bs_pad (get_boxstyle b) in
  mkRect (fst (xy b) - p) (snd (xy b) - p) (width b + 2 * p) (height b + 2 * p).

(** *** Connectors *)

Definition get_arrowstyle (c : connection_patch) : string :=
  kw_get (fun k => match k with arrowstyle v => Some v | _ => None end)
         (conn_kw c) "-".

(** The connection style and its curvature; the default is a straight
    connection, ["arc3"] with [rad = 0]. *)
Definition get_connectionstyle (c : connection_patch) : string * Q :=
  kw_get (fun k => match k with connectionstyle n r => Some (n, r) | _ => None end)
         (conn_kw c) ("arc3", 0).

(** Shrink at the tail and at the head, in points; a connection patch
    shrinks by nothing unless asked to. *)
Definition get_shrinkA (c : connection_patch) : Q :=
  kw_get (fun k => match k with shrinkA v => Some v | _ => None end) (conn_kw c) 0.

Definition get_shrinkB (c : connection_patch) : Q :=
  kw_get (fun k => match k with shrinkB v => Some v | _ => None end) (conn_kw c) 0.

(** Which ends carry an arrow head: (at the tail [xyA], at the head [xyB]). *)
Definition arrow_heads (c : connection_patch) : bool * bool :=
  let a := get_arrowstyle c in
  if a =? "->" then (false, true)
  else if a =? "<-" then (true, false)
  else if a =? "<->" then (true, true)
  else (false, false).

Definition head_count (c : connection_patch) : nat :=
  ((if fst (arrow_heads c) then 1 else 0) + (if snd (arrow_heads c) then 1 else 0))%nat.

(** *** Layer of an artist

    No call of the scripts passes [zorder], so every artist is drawn at
    the layer of its class: patches at 1, texts at 3. *)
Definition kw_zorder (kws : list Kw) (dflt : Q) : Q :=
  kw_get (fun k => match k with zorder v => Some v | _ => None end) kws dflt.

Definition get_zorder (a : Artist) : Q :=
  match a with
  | TextArtist t => kw_zorder (text_kw t) 3
  | BoxArtist b => kw_zorder (box_kw b) 1
  | ConnArtist c => kw_zorder (conn_kw c) 1
  end.

(** ** Figures, the world and the monad of the scripts *)

(** A figure with its single axes: the size in inches, the data range
    of the axes, whether the axis decoration is drawn, the artists in
    the order they were added, and whether [tight_layout] was applied. *)
Record Figure : Type := mkFigure
  { fig_size : Q * Q;
    xlim : Q * Q;
    ylim : Q * Q;
    axison : bool;
    children : list Artist;
    tight : bool }.

Definition new_figure (size : Q * Q) : Figure :=
  mkFigure size (0, 1) (0, 1) true [] false.

(** What [savefig] writes: the figure as it is at the time of the
    call, with the resolution and the bounding-box mode asked for. *)
Record Image : Type := mkImage
  { image_dpi : Q; image_bbox_inches : string; image_figure : Figure }.

(** The world a script runs in.  [heap] holds every figure object ever
    created (a figure keeps existing after it is closed, as long as the
    script holds [fig] or [ax]); [open_figs] is the backend's registry
    of open figures, the last one being the current figure; [files]
    is the file system; [writable] tells for which paths a write
    succeeds; [stdout] is the list of printed lines. *)
Record World : Type := mkWorld
  { heap : list Figure;
    open_figs : list nat;
    files : list (string * Image);
    writable : string -> bool;
    stdout : list string }.

Inductive Exn : Type :=
| OSError (path : string).

Inductive Outcome (A : Type) : Type :=
| Return (a : A)
| Raise (e : Exn).

Arguments Return {A} a.
Arguments Raise {A} e.

Definition M (A : Type) : Type := World -> World * Outcome A.

Definition ret {A : Type} (a : A) : M A := fun w => (w, Return a).

Definition bind {A B : Type} (m : M A) (k : A -> M B) : M B :=
  fun w =>
    match m w with
    | (w', Return a) => k a w'
    | (w', Raise e) => (w', Raise e)
    end.

Definition raise {A : Type} (e : Exn) : M A := fun w => (w, Raise e).

Declare Scope script_scope.
Delimit Scope script_scope with script.
Bind Scope script_scope with M.

Notation "x <- c1 ;; c2" := (bind c1 (fun x => c2))
  (at level 61, c1 at next level, right associativity) : script_scope.
Notation "c1 ;; c2" := (bind c1 (fun _ => c2))
  (at level 61, right associativity) : script_scope.

(** [for x in l: body]. *)
Fixpoint for_ {A : Type} (l : list A) (body : A -> M unit) : M unit :=
  match l with
  | [] => ret tt
  | x :: l' => bind (body x) (fun _ => for_ l' body)
  end.

(** [enumerate(l)]. *)
Fixpoint enumerate_from {A : Type} (i : nat) (l : list A) : list (nat * A) :=
  match l with
  | [] => []
  | x :: l' => (i, x) :: enumerate_from (S i) l'
  end.

Definition enumerate {A : Type} (l : list A) : list (nat * A) := enumerate_from 0 l.

(** *** File system *)

Fixpoint lookup_file (p : string) (fs : list (string * Image)) : option Image :=
  match fs with
  | [] => None
  | (q, i) :: fs' => if p =? q then Some i else lookup_file p fs'
  end.

Definition write_file (p : string) (i : Image) (fs : list (string * Image))
  : list (string * Image) :=
  (p, i) :: fs.

(** *** Backend primitives *)

Fixpoint update {A : Type} (n : nat) (f : A -> A) (l : list A) : list A :=
  match l, n with
  | [], _ => []
  | x :: l', O => f x :: l'
  | x :: l', S n' => x :: update n' f l'
  end.

Definition set_heap (h : list Figure) (w : World) : World :=
  mkWorld h (open_figs w) (files w) (writable w) (stdout w).

Definition set_open_figs (o : list nat) (w : World) : World :=
  mkWorld (heap w) o (files w) (writable w) (stdout w).

Definition set_files (fs : list (string * Image)) (w : World) : World :=
  mkWorld (heap w) (open_figs w) fs (writable w) (stdout w).

Definition set_stdout (out : list string) (w : World) : World :=
  mkWorld (heap w) (open_figs w) (files w) (writable w) out.

(** A new figure object, registered as the current figure. *)
Definition alloc (f : Figure) (w : World) : World :=
  mkWorld (heap w ++ [f]) (open_figs w ++ [List.length (heap w)])
          (files w) (writable w) (stdout w).

Definition kw_figsize (kws : list Kw) : Q * Q :=
  kw_get (fun k => match k with figsize v => Some v | _ => None end) kws (6.4, 4.8).

(** [fig, ax = plt.subplots(1, 1, figsize=...)]: both names refer to the
    new figure object. *)
Definition plt_subplots (nrows ncols : nat) (kws : list Kw) : M (nat * nat) :=
  fun w => (alloc (new_figure (kw_figsize kws)) w,
            Return (List.length (heap w), List.length (heap w))).

(** The current figure; the backend opens one when none is open. *)
Definition gcf : M nat :=
  fun w =>
    match rev (open_figs w) with
    | n :: _ => (w, Return n)
    | [] => (alloc (new_figure (kw_figsize [])) w, Return (List.length (heap w)))
    end.

(** An axes method: it changes the figure object the handle refers to.
    No method looks at whether the figure is still open. *)
Definition on_axes (ax : nat) (f : Figure -> Figure) : M unit :=
  fun w => (set_heap (update ax f (heap w)) w, Return tt).

Definition fig_set_xlim (lo hi : Q) (f : Figure) : Figure :=
  mkFigure (fig_size f) (lo, hi) (ylim f) (axison f) (children f) (tight f).

Definition fig_set_ylim (lo hi : Q) (f : Figure) : Figure :=
  mkFigure (fig_size f) (xlim f) (lo, hi) (axison f) (children f) (tight f).

Definition fig_axis (arg : string) (f : Figure) : Figure :=
  mkFigure (fig_size f) (xlim f) (ylim f)
           (if arg =? "off" then false else if arg =? "on" then true else axison f)
           (children f) (tight f).

Definition fig_add (a : Artist) (f : Figure) : Figure :=
  mkFigure (fig_size f) (xlim f) (ylim f) (axison f) (children f ++ [a]) (tight f).

Definition fig_tight_layout (f : Figure) : Figure :=
  mkFigure (fig_size f) (xlim f) (ylim f) (axison f) (children f) true.

Definition ax_set_xlim (ax : nat) (lo hi : Q) : M unit := on_axes ax (fig_set_xlim lo hi).
Definition ax_set_ylim (ax : nat) (lo hi : Q) : M unit := on_axes ax (fig_set_ylim lo hi).
Definition ax_axis (ax : nat) (arg : string) : M unit := on_axes ax (fig_axis arg).

Definition ax_text (ax : nat) (x y : Q) (s : string) (kws : list Kw) : M unit :=
  on_axes ax (fig_add (TextArtist (Text x y s kws))).

Definition ax_add_patch (ax : nat) (b : fancy_bbox_patch) : M unit :=
  on_axes ax (fig_add (BoxArtist b)).

Definition ax_add_artist (ax : nat) (c : connection_patch) : M unit :=
  on_axes ax (fig_add (ConnArtist c)).

Definition plt_tight_layout : M unit :=
  bind gcf (fun n => on_axes n fig_tight_layout).

Definition kw_dpi (kws : list Kw) : Q :=
  kw_get (fun k => match k with dpi v => Some v | _ => None end) kws 100.

Definition kw_bbox_inches (kws : list Kw) : string :=
  kw_get (fun k => match k with bbox_inches v => Some v | _ => None end) kws "standard".

(** [plt.savefig(path, ...)] writes the current figure, or raises when
    the path cannot be written. *)
Definition plt_savefig (path : string) (kws : list Kw) : M unit :=
  bind gcf (fun n w =>
    if writable w path then
      (set_files (write_file path
                    (mkImage (kw_dpi kws) (kw_bbox_inches kws)
                             (nth n (heap w) (new_figure (kw_figsize []))))
                    (files w)) w,
       Return tt)
    else (w, Raise (OSError path))).

(** [plt.close()] takes the current figure out of the registry. *)
Definition plt_close : M unit :=
  fun w => (set_open_figs (removelast (open_figs w)) w, Return tt).

Definition print (line : string) : M unit :=
  fun w => (set_stdout (stdout w ++ [line]) w, Return tt).

Notation "' pat <- c1 ;; c2" := (bind c1 (fun x => match x with pat => c2 end))
  (at level 61, pat pattern, c1 at next level, right associativity) : script_scope.

(** ** String helpers of the scripts *)

(** The escape [\n]. *)
Definition nl : string := String (ascii_of_nat 10) EmptyString.

(** [s.split(sep)] for a non-empty separator: the pieces of [s] between
    the occurrences of [sep], scanned from the left.  [skip] counts the
    characters of a separator that are still to be dropped and [cur] is
    the piece being collected. *)
Fixpoint split_go (sep s : string) (skip : nat) (cur : string) : list string :=
  match s with
  | EmptyString => [cur]
  | String c s' =>
      match skip with
      | S k => split_go sep s' k cur
      | O =>
          if prefix sep s
          then cur :: split_go sep s' (String.length sep - 1) ""
          else split_go sep s' 0 (cur ++ String c "")
      end
  end.

Definition split (sep s : string) : list string := split_go sep s 0 "".

(** [l[0]] on a list of strings. *)
Definition first (l : list string) : string := nth 0 l "".

(** The substring of [s] before the first occurrence of the character
    [c]; all of [s] when [c] does not occur.  This is the reading
    "truncated at the first [c]". *)
Fixpoint before_first (c : ascii) (s : string) : string :=
  match s with
  | EmptyString => EmptyString
  | String d s' => if Ascii.eqb d c then EmptyString else String d (before_first c s')
  end.

(** ** The current-architecture script *)

Module Current.

Definition java_color : string := "#FF6B35".
Definition mitm_color : string := "#F7931E".
Definition audit_color : string := "#4ECDC4".
Definition credential_color : string := "#45B7D1".
Definition interface_color : string := "#96CEB4".

Definition main_box : fancy_bbox_patch :=
  FancyBboxPatch (0.5, 1) 9 7.5
    [boxstyle (round_pad 0.1); facecolor java_color; edgecolor "black";
     linewidth 2; alpha 0.3].

Definition mitm_box : fancy_bbox_patch :=
  FancyBboxPatch (1, 6) 8 1.8
    [boxstyle (round_pad 0.05); facecolor mitm_color; edgecolor "black";
     linewidth 1; alpha 0.7].

Definition mitm_components : list (string * Q * Q) :=
  [("MonitorSSHAudit.java", 1.5, 6.8);
   ("MonitorVNCAudit.java", 3.5, 6.8);
   ("Rdp2ProxyHandler.java", 5.5, 6.8);
   ("SessionInfo.java", 7.5, 6.8)].

(** The box built in the body of both component loops. *)
Definition comp_box (x y : Q) : fancy_bbox_patch :=
  FancyBboxPatch (x - 0.4, y - 0.15) 0.8 0.3
    [boxstyle (round_pad 0.02); facecolor "white"; edgecolor "black";
     linewidth 0.5].

(** The text added in the body of both component loops. *)
Definition comp_label (comp : string) (x y : Q) : text :=
  Text x y (first (split "." comp)) [fontsize 8; ha "center"; va "center"].

Definition audit_box : fancy_bbox_patch :=
  FancyBboxPatch (1, 3.5) 8 1.8
    [boxstyle (round_pad 0.05); facecolor audit_color; edgecolor "black";
     linewidth 1; alpha 0.7].

Definition audit_components : list (string * Q * Q) :=
  [("AuditFile.java", 1.5, 4.3);
   ("DatabaseAuditWriter.java", 3.5, 4.3);
   ("TerminalAuditWriter.java", 5.5, 4.3);
   ("GuessingConnectionLinker.java", 7.5, 4.3)].

Definition cred_box : fancy_bbox_patch :=
  FancyBboxPatch (1, 1.5) 8 1.2
    [boxstyle (round_pad 0.05); facecolor credential_color; edgecolor "black";
     linewidth 1; alpha 0.7].

Definition arrow1 : connection_patch :=
  ConnectionPatch (5, 6) (5, 5.3) "data" "data"
    [arrowstyle "->"; shrinkA 5; shrinkB 5; mutation_scale 20;
     fc "red"; ec "red"; linewidth 2].

Definition arrow2 : connection_patch :=
  ConnectionPatch (5, 6) (5, 2.7) "data" "data"
    [arrowstyle "->"; shrinkA 5; shrinkB 5; mutation_scale 20;
     fc "red"; ec "red"; linewidth 2].

Definition arrow3 : connection_patch :=
  ConnectionPatch (5, 3.5) (5, 2.7) "data" "data"
    [arrowstyle "->"; shrinkA 5; shrinkB 5; mutation_scale 20;
     fc "red"; ec "red"; linewidth 2].

Definition client_arrow : connection_patch :=
  ConnectionPatch (0.8, 7) (1, 7) "data" "data"
    [arrowstyle "->"; shrinkA 5; shrinkB 5; mutation_scale 20;
     fc "blue"; ec "blue"].

Definition problems_text : string :=
"Problems with Current Architecture:
• Tight coupling between MITM and audit
• Single point of failure
• Difficult to add web client support
• Complex threading model
• Data loss risk from coupling".

Definition output_path : string := "docs/analysis/current-architecture.png".

Definition confirmation : string :=
  "Current architecture diagram saved as: docs/analysis/current-architecture.png".

Definition main : M unit :=
  (' (fig, ax) <- plt_subplots 1 1 [figsize (14, 10)] ;;
   ax_set_xlim ax 0 10 ;;
   ax_set_ylim ax 0 10 ;;
   ax_axis ax "off" ;;
   ax_text ax 5 9.5 "Current Monolithic Java Audit System"
     [fontsize 18; fontweight "bold"; ha "center"] ;;
   ax_add_patch ax main_box ;;
   ax_text ax 5 8.2 "Java Audit System" [fontsize 16; fontweight "bold"; ha "center"] ;;
   ax_add_patch ax mitm_box ;;
   ax_text ax 5 7.5 "MITM Proxy Layer" [fontsize 14; fontweight "bold"; ha "center"] ;;
   for_ mitm_components (fun '(comp, x, y) =>
     ax_add_patch ax (comp_box x y) ;;
     ax_text ax x y (first (split "." comp)) [fontsize 8; ha "center"; va "center"]) ;;
   ax_add_patch ax audit_box ;;
   ax_text ax 5 5 "Audit Logging Layer" [fontsize 14; fontweight "bold"; ha "center"] ;;
   for_ audit_components (fun '(comp, x, y) =>
     ax_add_patch ax (comp_box x y) ;;
     ax_text ax x y (first (split "." comp)) [fontsize 8; ha "center"; va "center"]) ;;
   ax_add_patch ax cred_box ;;
   ax_text ax 5 2.5 "Credential Injection Service"
     [fontsize 14; fontweight "bold"; ha "center"] ;;
   ax_text ax 5 1.9 "CredentialInjectionService.java (Parent Integration)"
     [fontsize 10; ha "center"] ;;
   ax_add_artist ax arrow1 ;;
   ax_add_artist ax arrow2 ;;
   ax_add_artist ax arrow3 ;;
   ax_text ax 5.5 5.7 ("Tight" ++ nl ++ "Coupling")
     [fontsize 10; ha "center"; bbox (dict (round_pad 0.3) "red" (Some 0.3))] ;;
   ax_text ax 0.2 7 ("Client" ++ nl ++ "Connections")
     [fontsize 10; ha "center"; va "center";
      bbox (dict (round_pad 0.2) "lightblue" None)] ;;
   ax_add_artist ax client_arrow ;;
   ax_text ax 0.5 0.5 problems_text
     [fontsize 10; va "bottom"; bbox (dict (round_pad 0.3) "yellow" (Some 0.7))] ;;
   plt_tight_layout ;;
   plt_savefig output_path [dpi 300; bbox_inches "tight"] ;;
   plt_close ;;
   print confirmation)%script.

End Current.

(** ** The proposed-architecture script *)

Module Proposed.

Definition rust_color : string := "#CE422B".
Definition java_color : string := "#FF6B35".
Definition ipc_color : string := "#96CEB4".
Definition web_color : string := "#45B7D1".
Definition unchanged_color : string := "#4ECDC4".

Definition rust_box : fancy_bbox_patch :=
  FancyBboxPatch (0.5, 5) 4.5 3.5
    [boxstyle (round_pad 0.1); facecolor rust_color; edgecolor "black";
     linewidth 2; alpha 0.3].

Definition rust_components : list (string * Q * Q) :=
  [("SSH MITM" ++ nl ++ "(russh)", 1.5, 7.5);
   ("RDP MITM" ++ nl ++ "(IronRDP)", 4, 7.5);
   ("WebSocket" ++ nl ++ "Streaming", 1.5, 6.5);
   ("Credential Lookup" ++ nl ++ "via IPC", 4, 6.5);
   ("Protocol State" ++ nl ++ "Management", 2.75, 5.5)].

(** The box built in the body of the Rust component loop. *)
Definition rust_comp_box (x y : Q) : fancy_bbox_patch :=
  FancyBboxPatch (x - 0.4, y - 0.25) 0.8 0.5
    [boxstyle (round_pad 0.02); facecolor "white"; edgecolor "black";
     linewidth 0.5].

(** The text added in the body of the Rust component loop. *)
Definition rust_comp_label (comp : string) (x y : Q) : text :=
  Text x y comp [fontsize 9; ha "center"; va "center"].

Definition java_box : fancy_bbox_patch :=
  FancyBboxPatch (7, 5) 4.5 3.5
    [boxstyle (round_pad 0.1); facecolor java_color; edgecolor "black";
     linewidth 2; alpha 0.3].

Definition java_components : list (string * Q * Q) :=
  [("AuditFile.java" ++ nl ++ "(UNCHANGED)", 8, 7.5);
   ("DatabaseAuditWriter.java" ++ nl ++ "(UNCHANGED)", 10.5, 7.5);
   ("TerminalAuditWriter.java" ++ nl ++ "(UNCHANGED)", 8, 6.5);
   ("GuessingConnectionLinker.java" ++ nl ++ "(UNCHANGED)", 10.5, 6.5);
   ("CredentialInjectionService.java" ++ nl ++ "(UNCHANGED)", 9.25, 5.5)].

(** The box built in the body of the Java component loop. *)
Definition java_comp_box (x y : Q) : fancy_bbox_patch :=
  FancyBboxPatch (x - 0.4, y - 0.25) 0.8 0.5
    [boxstyle (round_pad 0.02); facecolor unchanged_color; edgecolor "black";
     linewidth 0.5; alpha 0.8].

(** The two texts added in the body of the Java component loop. *)
Definition java_comp_label (comp : string) (x y : Q) : text :=
  Text x y (first (split nl comp)) [fontsize 8; ha "center"; va "center"].

Definition java_comp_tag (x y : Q) : text :=
  Text x (y - 0.15) "(UNCHANGED)"
    [fontsize 7; ha "center"; va "center"; style "italic"; color "green";
     fontweight "bold"].

Definition ipc_box : fancy_bbox_patch :=
  FancyBboxPatch (5.25, 6) 1.5 2
    [boxstyle (round_pad 0.05); facecolor ipc_color; edgecolor "black";
     linewidth 2; alpha 0.8].

Definition ipc_components : list string :=
  ["Credential Lookup"; "Audit Events"; "Session Lifecycle"; "WebSocket Data"].

Definition ipc_arrow1 : connection_patch :=
  ConnectionPatch (5, 7) (5.25, 7) "data" "data"
    [arrowstyle "->"; shrinkA 5; shrinkB 5; mutation_scale 20;
     fc "green"; ec "green"; linewidth 3].

Definition ipc_arrow2 : connection_patch :=
  ConnectionPatch (6.75, 7) (7, 7) "data" "data"
    [arrowstyle "->"; shrinkA 5; shrinkB 5; mutation_scale 20;
     fc "green"; ec "green"; linewidth 3].

Definition ipc_arrow3 : connection_patch :=
  ConnectionPatch (7, 6.5) (6.75, 6.5) "data" "data"
    [arrowstyle "->"; shrinkA 5; shrinkB 5; mutation_scale 20;
     fc "green"; ec "green"; linewidth 3].

Definition ipc_arrow4 : connection_patch :=
  ConnectionPatch (5.25, 6.5) (5, 6.5) "data" "data"
    [arrowstyle "->"; shrinkA 5; shrinkB 5; mutation_scale 20;
     fc "green"; ec "green"; linewidth 3].

Definition client_arrow1 : connection_patch :=
  ConnectionPatch (0.8, 7) (0.5, 7) "data" "data"
    [arrowstyle "->"; shrinkA 5; shrinkB 5; mutation_scale 20;
     fc "blue"; ec "blue"].

Definition client_arrow2 : connection_patch :=
  ConnectionPatch (0.8, 5.5) (0.5, 6) "data" "data"
    [arrowstyle "->"; shrinkA 5; shrinkB 5; mutation_scale 20;
     fc web_color; ec web_color].

Definition db_arrow : connection_patch :=
  ConnectionPatch (9.25, 5) (9.25, 4.7) "data" "data"
    [arrowstyle "->"; shrinkA 5; shrinkB 5; mutation_scale 20;
     fc "gray"; ec "gray"].

Definition file_arrow : connection_patch :=
  ConnectionPatch (10.5, 5) (11, 4.7) "data" "data"
    [arrowstyle "->"; shrinkA 5; shrinkB 5; mutation_scale 20;
     fc "gray"; ec "gray"].

Definition benefits_text : string :=
"Benefits of Separated Architecture:
• Loose coupling via IPC interface
• Independent failure domains
• Web client support built-in
• Rust memory safety and performance
• Preserved audit architecture (95% unchanged)
• Minimal risk to existing functionality".

Definition tech_text : string :=
"Technical Implementation:
• IPC: Unix Domain Sockets / Named Pipes
• Serialization: MessagePack (binary)
• Error Handling: Timeout + Retry + Fallback
• Performance: <10ms IPC overhead
• Compatibility: 100% audit format preservation".

Definition separation_line : connection_patch :=
  ConnectionPatch (5.75, 4.5) (5.75, 8.5) "data" "data"
    [linestyle "--"; linewidth 3; color "red"; alpha 0.7].

Definition output_path : string := "docs/analysis/proposed-architecture.png".

Definition confirmation : string :=
  "Proposed architecture diagram saved as: docs/analysis/proposed-architecture.png".

Definition main : M unit :=
  (' (fig, ax) <- plt_subplots 1 1 [figsize (16, 12)] ;;
   ax_set_xlim ax 0 12 ;;
   ax_set_ylim ax 0 10 ;;
   ax_axis ax "off" ;;
   ax_text ax 6 9.5 "Proposed Separated Architecture: Rust MITM + Java Audit"
     [fontsize 18; fontweight "bold"; ha "center"] ;;
   ax_add_patch ax rust_box ;;
   ax_text ax 2.75 8.2 "Rust MITM Process"
     [fontsize 16; fontweight "bold"; ha "center"; color "white"] ;;
   for_ rust_components (fun '(comp, x, y) =>
     ax_add_patch ax (rust_comp_box x y) ;;
     ax_text ax x y comp [fontsize 9; ha "center"; va "center"]) ;;
   ax_add_patch ax java_box ;;
   ax_text ax 9.25 8.2 "Java Audit Process" [fontsize 16; fontweight "bold"; ha "center"] ;;
   for_ java_components (fun '(comp, x, y) =>
     ax_add_patch ax (java_comp_box x y) ;;
     ax_text ax x y (first (split nl comp)) [fontsize 8; ha "center"; va "center"] ;;
     ax_text ax x (y - 0.15) "(UNCHANGED)"
       [fontsize 7; ha "center"; va "center"; style "italic"; color "green";
        fontweight "bold"]) ;;
   ax_add_patch ax ipc_box ;;
   ax_text ax 6 7.5 "IPC Interface" [fontsize 12; fontweight "bold"; ha "center"] ;;
   for_ (enumerate ipc_components) (fun '(i, comp) =>
     ax_text ax 6 (7.2 - inject_Z (Z.of_nat i) * 0.2) ("• " ++ comp)
       [fontsize 8; ha "center"]) ;;
   ax_add_artist ax ipc_arrow1 ;;
   ax_add_artist ax ipc_arrow2 ;;
   ax_add_artist ax ipc_arrow3 ;;
   ax_add_artist ax ipc_arrow4 ;;
   ax_text ax 0.2 7 ("Native" ++ nl ++ "Clients")
     [fontsize 10; ha "center"; va "center";
      bbox (dict (round_pad 0.2) "lightblue" None)] ;;
   ax_text ax 0.2 5.5 ("Web" ++ nl ++ "Clients")
     [fontsize 10; ha "center"; va "center";
      bbox (dict (round_pad 0.2) web_color None)] ;;
   ax_add_artist ax client_arrow1 ;;
   ax_add_artist ax client_arrow2 ;;
   ax_text ax 9.25 4.5 "Database"
     [fontsize 10; ha "center"; va "center";
      bbox (dict (round_pad 0.2) "lightgray" None)] ;;
   ax_text ax 11 4.5 "Audit Files"
     [fontsize 10; ha "center"; va "center";
      bbox (dict (round_pad 0.2) "lightgray" None)] ;;
   ax_add_artist ax db_arrow ;;
   ax_add_artist ax file_arrow ;;
   ax_text ax 0.5 3.5 benefits_text
     [fontsize 11; va "top"; bbox (dict (round_pad 0.3) "lightgreen" (Some 0.7))] ;;
   ax_text ax 6.5 3.5 tech_text
     [fontsize 11; va "top"; bbox (dict (round_pad 0.3) "lightyellow" (Some 0.7))] ;;
   ax_text ax 6 8.7 "↕ Bidirectional IPC"
     [fontsize 10; ha "center"; bbox (dict (round_pad 0.2) "green" (Some 0.3))] ;;
   ax_add_artist ax separation_line ;;
   ax_text ax 5.75 4.2 "Process Boundary"
     [fontsize 10; ha "center"; color "red"; fontweight "bold"] ;;
   plt_tight_layout ;;
   plt_savefig output_path [dpi 300; bbox_inches "tight"] ;;
   plt_close ;;
   print confirmation)%script.

End Proposed.

(** ** Running a script *)

(** A world with no figure, no file and nothing printed, in which every
    path whose name [ok] accepts can be written. *)
Definition empty_world (ok : string -> bool) : World := mkWorld [] [] [] ok [].

Definition all_writable : string -> bool := fun _ => true.
Definition none_writable : string -> bool := fun _ => false.

(** The figure a script has built: the last figure object of the world
    it leaves behind. *)
Definition last_figure (w : World) : Figure :=
  last (heap w) (new_figure (kw_figsize [])).

Definition current_figure : Figure :=
  last_figure (fst (Current.main (empty_world all_writable))).

Definition proposed_figure : Figure :=
  last_figure (fst (Proposed.main (empty_world all_writable))).

(** ** What a figure holds *)

Definition connectors (f : Figure) : list connection_patch :=
  flat_map (fun a => match a with ConnArtist c => [c] | _ => [] end) (children f).

Definition boxes (f : Figure) : list fancy_bbox_patch :=
  flat_map (fun a => match a with BoxArtist b => [b] | _ => [] end) (children f).

Definition texts (f : Figure) : list text :=
  flat_map (fun a => match a with TextArtist t => [t] | _ => [] end) (children f).

Definition is_text (a : Artist) : bool :=
  match a with TextArtist _ => true | _ => false end.

Definition is_patch (a : Artist) : bool := negb (is_text a).

(** The canvas of a figure is the data range of its axes. *)
Definition in_canvas (f : Figure) (p : Point) : bool :=
  point_within (fst (xlim f)) (snd (xlim f)) (fst (ylim f)) (snd (ylim f)) p.

Definition rect_in_canvas (f : Figure) (r : Rect) : bool :=
  rect_within (fst (xlim f)) (snd (xlim f)) (fst (ylim f)) (snd (ylim f)) r.

(** Every coordinate an artist was given lies in the canvas: the anchor
    of a text, the rectangle of a box together with its padded outline,
    both ends of a connector. *)
Definition artist_in_canvas (f : Figure) (a : Artist) : bool :=
  match a with
  | TextArtist t => in_canvas f (text_anchor t)
  | BoxArtist b => rect_in_canvas f (box_rect b) && rect_in_canvas f (box_outline b)
  | ConnArtist c => in_canvas f (xyA c) && in_canvas f (xyB c)
  end.

(** ** Drawing order

    The axes draw their artists sorted by layer; the sort is stable, so
    artists of one layer keep the order in which they were added.  A
    later element of the result is painted over an earlier one. *)

Fixpoint insert_by_zorder (a : Artist) (sorted : list Artist) : list Artist :=
  match sorted with
  | [] => [a]
  | b :: rest =>
      if Qle_bool (get_zorder a) (get_zorder b)
      then a :: b :: rest
      else b :: insert_by_zorder a rest
  end.

Definition render_order (f : Figure) : list Artist :=
  fold_right insert_by_zorder [] (children f).

(** A box is inserted before every connector, and before every other
    box whose outline lies inside its own. *)
Definition layered_pair (ia je : nat * Artist) : bool :=
  match snd ia with
  | BoxArtist b =>
      match snd je with
      | ConnArtist _ => (fst ia <? fst je)%nat
      | BoxArtist b' =>
          if (fst ia =? fst je)%nat then true
          else if rect_inside (box_outline b') (box_outline b)
               then (fst ia <? fst je)%nat
               else true
      | TextArtist _ => true
      end
  | _ => true
  end.

Definition layered (l : list Artist) : bool :=
  forallb (fun ia => forallb (layered_pair ia) (enumerate l)) (enumerate l).

(** A connector runs through the anchor of a text when the anchor lies
    on the segment between its two ends, strictly between them. *)
Definition runs_through (c : connection_patch) (t : text) : bool :=
  let '(xa, ya) := xyA c in
  let '(xb, yb) := xyB c in
  let '(x, y) := text_anchor t in
  Qeq_bool ((xb - xa) * (y - ya)) ((yb - ya) * (x - xa)) &&
  negb (Qle_bool 0 ((x - xa) * (x - xb) + (y - ya) * (y - yb))).

(** ** Connector geometry on the page

    Connectors are laid out in display space, measured in points.  The
    display position of a data point is fixed by the scale of the axes,
    the number of points one data unit takes along each direction. *)

Record Scale : Type := mkScale { sx : Q; sy : Q }.

Definition display (T : Scale) (p : Point) : Point := (sx T * fst p, sy T * snd p).

Definition dist2 (p q : Point) : Q :=
  (fst q - fst p) * (fst q - fst p) + (snd q - snd p) * (snd q - snd p).

(** Square of the length of a connector on the page. *)
Definition display_len2 (T : Scale) (c : connection_patch) : Q :=
  dist2 (display T (xyA c)) (display T (xyB c)).

(** The point at parameter [t] on the straight segment from [p] to [q]. *)
Definition lerp (p q : Point) (t : Q) : Point :=
  (fst p + t * (fst q - fst p), snd p + t * (snd q - snd p)).

(** The connection style ["arc3"] joins two points by a quadratic curve
    whose control point is the midpoint moved sideways by [rad] times
    the distance. *)
Definition arc3_control (rad : Q) (p q : Point) : Point :=
  ((fst p + fst q) / 2 + rad * (snd q - snd p),
   (snd p + snd q) / 2 - rad * (fst q - fst p)).

Definition bezier2 (p0 p1 p2 : Point) (t : Q) : Point :=
  ((1 - t) * (1 - t) * fst p0 + 2 * (1 - t) * t * fst p1 + t * t * fst p2,
   (1 - t) * (1 - t) * snd p0 + 2 * (1 - t) * t * snd p1 + t * t * snd p2).

(** The point at parameter [t] of the path of a connector, before any
    shrinking; only the style ["arc3"] is described. *)
Definition path_point (T : Scale) (c : connection_patch) (t : Q) : option Point :=
  let a := display T (xyA c) in
  let b := display T (xyB c) in
  if fst (get_connectionstyle c) =? "arc3"
  then Some (bezier2 a (arc3_control (snd (get_connectionstyle c)) a b) b t)
  else None.

(** Shrinking.  With [shrinkA = r], [r > 0], the drawn path starts where
    the path leaves the circle of radius [r] points around [xyA]; a
    path that ends inside that circle is left as it is.  [shrinkB]
    does the same at [xyB] with what is left of the path.  For a
    straight connector the two functions below give how far from its
    anchor, in points along the segment, each end of the drawn line
    is: the drawn line has an end at the anchor exactly when the value
    is 0. *)
Definition tail_inset (T : Scale) (c : connection_patch) : Q :=
  let r := get_shrinkA c in
  if Qeq_bool r 0 then 0
  else if Qle_bool (r * r) (display_len2 T c) then r else 0.

Definition head_inset (T : Scale) (c : connection_patch) : Q :=
  let r := get_shrinkB c in
  let a := tail_inset T c in
  if Qeq_bool r 0 then 0
  else if Qle_bool ((a + r) * (a + r)) (display_len2 T c) then r else 0.

(** Both ends of the drawn line are within [tol] points of the two
    anchors of the connector. *)
Definition ends_at_anchors (tol : Q) (T : Scale) (c : connection_patch) : Prop :=
  tail_inset T c <= tol /\ head_inset T c <= tol.

(** The scale at which the 10 by 10 data range of the current diagram
    fills its whole 14 by 10 inch figure, at 72 points to the inch. *)
Definition page_scale : Scale := mkScale 100.8 72.

(** ** Properties the scripts are checked against *)

(** Every connector of the figure is drawn from anchor to anchor, at
    every scale. *)
Definition endpoints_verbatim (tol : Q) (f : Figure) : Prop :=
  forall T c, 0 < sx T -> 0 < sy T -> In c (connectors f) -> ends_at_anchors tol T c.

(** The figure is painted in the order its artists were added. *)
Definition drawn_in_insertion_order (f : Figure) : Prop :=
  render_order f = children f.

(** The position given for a box is the center of the rectangle drawn. *)
Definition centered_at_given_position (b : fancy_bbox_patch) : Prop :=
  peq (rect_center (box_outline b)) (xy b).

(** A script leaves no figure open that was not open before. *)
Definition canvas_released (main : M unit) (w : World) : Prop :=
  open_figs (fst (main w)) = open_figs w.

(** An operation is refused. *)
Definition fails {A : Type} (m : M A) (w : World) : Prop :=
  exists e, snd (m w) = Raise e.

(** The figure object a handle refers to. *)
Definition figure_at (w : World) (ax : nat) : Figure :=
  nth ax (heap w) (new_figure (kw_figsize [])).

(** ** The chips of the two diagrams

    What one pass through the body of a component loop adds to the
    axes. *)

Definition current_chip (c : string * Q * Q) : list Artist :=
  let '(comp, x, y) := c in
  [BoxArtist (Current.comp_box x y); TextArtist (Current.comp_label comp x y)].

Definition rust_chip (c : string * Q * Q) : list Artist :=
  let '(comp, x, y) := c in
  [BoxArtist (Proposed.rust_comp_box x y);
   TextArtist (Proposed.rust_comp_label comp x y)].

Definition java_chip (c : string * Q * Q) : list Artist :=
  let '(comp, x, y) := c in
  [BoxArtist (Proposed.java_comp_box x y);
   TextArtist (Proposed.java_comp_label comp x y);
   TextArtist (Proposed.java_comp_tag x y)].

(** The [len] elements of [l] from position [from] on. *)
Definition slice {A : Type} (from len : nat) (l : list A) : list A :=
  firstn len (skipn from l).

(** The label of the audit layer, as the current script adds it. *)
Definition audit_layer_label : text :=
  Text 5 5 "Audit Logging Layer" [fontsize 14; fontweight "bold"; ha "center"].

(** Every artist is drawn at the layer of its class. *)
Definition default_layers (l : list Artist) : Prop :=
  Forall (fun a => get_zorder a = if is_text a then 3 else 1) l.

(** What [layered] decides, stated on positions. *)
Definition boxes_below (l : list Artist) : Prop :=
  forall i j b e,
    nth_error l i = Some (BoxArtist b) ->
    nth_error l j = Some e ->
    match e with
    | ConnArtist _ => (i < j)%nat
    | BoxArtist b' =>
        i <> j -> rect_inside (box_outline b') (box_outline b) = true -> (i < j)%nat
    | TextArtist _ => True
    end.

(** ** Worlds a script leaves behind *)

(** The world after a script that built the figure [f] in [w], saved
    it to [path] with the keywords [kws], closed it and printed [line]. *)
Definition exported (path line : string) (kws : list Kw) (f : Figure) (w : World)
  : World :=
  mkWorld (heap w ++ [f]) (open_figs w)
          (write_file path (mkImage (kw_dpi kws) (kw_bbox_inches kws) f) (files w))
          (writable w) (stdout w ++ [line]).

Definition current_image : Image := mkImage 300 "tight" current_figure.
Definition proposed_image : Image := mkImage 300 "tight" proposed_figure.

(** After the script, every populate-phase operation is refused. *)
Definition populate_refused_after (main : M unit) (w : World) : Prop :=
  forall ax x y s kws b c,
    fails (ax_text ax x y s kws) (fst (main w)) /\
    fails (ax_add_patch ax b) (fst (main w)) /\
    fails (ax_add_artist ax c) (fst (main w)).

(** ** The loops of the scripts, over any list of components

    The body of each loop below is the body of the loop of the script;
    the list it runs over is a parameter. *)

(** [for comp, x, y in mitm_components] and [in audit_components]. *)
Definition current_chip_loop (ax : nat) (components : list (string * Q * Q)) : M unit :=
  (for_ components (fun '(comp, x, y) =>
     ax_add_patch ax (Current.comp_box x y) ;;
     ax_text ax x y (first (split "." comp)) [fontsize 8; ha "center"; va "center"]))%script.

(** [for comp, x, y in rust_components]. *)
Definition rust_chip_loop (ax : nat) (components : list (string * Q * Q)) : M unit :=
  (for_ components (fun '(comp, x, y) =>
     ax_add_patch ax (Proposed.rust_comp_box x y) ;;
     ax_text ax x y comp [fontsize 9; ha "center"; va "center"]))%script.

(** [for comp, x, y in java_components]. *)
Definition java_chip_loop (ax : nat) (components : list (string * Q * Q)) : M unit :=
  (for_ components (fun '(comp, x, y) =>
     ax_add_patch ax (Proposed.java_comp_box x y) ;;
     ax_text ax x y (first (split nl comp)) [fontsize 8; ha "center"; va "center"] ;;
     ax_text ax x (y - 0.15) "(UNCHANGED)"
       [fontsize 7; ha "center"; va "center"; style "italic"; color "green";
        fontweight "bold"]))%script.

(** [for i, comp in enumerate(ipc_components)]. *)
Definition ipc_loop (ax : nat) (components : list string) : M unit :=
  (for_ (enumerate components) (fun '(i, comp) =>
     ax_text ax 6 (7.2 - inject_Z (Z.of_nat i) * 0.2) ("• " ++ comp)
       [fontsize 8; ha "center"]))%script.

(** The text the body of the last loop adds for the entry [comp] at
    position [i]. *)
Definition ipc_bullet (ic : nat * string) : Artist :=
  TextArtist (Text 6 (7.2 - inject_Z (Z.of_nat (fst ic)) * 0.2) ("• " ++ snd ic)
                   [fontsize 8; ha "center"]).

(** The figure [f] with the artists [l] added after its own. *)
Definition with_added (l : list Artist) (f : Figure) : Figure :=
  mkFigure (fig_size f) (xlim f) (ylim f) (axison f) (children f ++ l) (tight f).

(** ** More on strings and rectangles *)

(** [sep.join(l)]. *)
Fixpoint join (sep : string) (l : list string) : string :=
  match l with
  | [] => ""
  | [p] => p
  | p :: rest => p ++ sep ++ join sep rest
  end.

(** The character [c] occurs in [s]. *)
Fixpoint occurs (c : ascii) (s : string) : bool :=
  match s with
  | EmptyString => false
  | String d s' => Ascii.eqb d c || occurs c s'
  end.

(** Two rectangles share no inner point. *)
Definition rect_disjoint (r1 r2 : Rect) : bool :=
  Qle_bool (rx r1 + rw r1) (rx r2) || Qle_bool (rx r2 + rw r2) (rx r1) ||
  Qle_bool (ry r1 + rh r1) (ry r2) || Qle_bool (ry r2 + rh r2) (ry r1).

(** No two rectangles at different positions of the list overlap. *)
Definition pairwise_disjoint (l : list Rect) : bool :=
  forallb (fun ir => forallb (fun js =>
             (fst ir =? fst js)%nat || rect_disjoint (snd ir) (snd js))
           (enumerate l)) (enumerate l).

(** A point on the border of a rectangle. *)
Definition on_border (p : Point) (r : Rect) : bool :=
  point_within (rx r) (rx r + rw r) (ry r) (ry r + rh r) p &&
  (Qeq_bool (fst p) (rx r) || Qeq_bool (fst p) (rx r + rw r) ||
   Qeq_bool (snd p) (ry r) || Qeq_bool (snd p) (ry r + rh r)).

(** The connector starts or ends on the border of one of the boxes. *)
Definition touches_a_box (bs : list fancy_bbox_patch) (c : connection_patch) : bool :=
  existsb (fun b => on_border (xyA c) (box_rect b) || on_border (xyB c) (box_rect b)) bs.

Definition chip_outline (boxf : Q -> Q -> fancy_bbox_patch) (c : string * Q * Q) : Rect :=
  box_outline (boxf (snd (fst c)) (snd c)).

(** The scale at which the 12 by 10 data range of the proposed diagram
    fills its whole 16 by 12 inch figure, at 72 points to the inch. *)
Definition proposed_page_scale : Scale := mkScale 96 86.4.

(** Every arrow of the figure carries its one head at its second
    point: the head is at that end, and that end of the drawn line is
    within [tol] points of the point. *)
Definition heads_at_destination (tol : Q) (f : Figure) : Prop :=
  forall T c, 0 < sx T -> 0 < sy T -> In c (connectors f) ->
              get_arrowstyle c = "->" ->
              arrow_heads c = (false, true) /\ head_inset T c <= tol.

(** * Properties *)

(** ** Facts about the helpers *)

Lemma Qle_bool_false_lt (x y : Q) : Qle_bool x y = false -> y < x.
Proof.
  intros H. apply Qnot_le_lt. intros Hle.
  apply Qle_bool_iff in Hle. congruence.
Qed.

(** A connector that shrinks by [a] and [b] points and is at least
    [a + b] points long on the page is drawn [a] points short of its
    tail anchor and [b] points short of its head anchor. *)
Lemma insets_of_shrink (T : Scale) (c : connection_patch) (a b : Q) :
  get_shrinkA c = a -> get_shrinkB c = b -> 0 < a -> 0 < b ->
  (a + b) * (a + b) <= display_len2 T c ->
  tail_inset T c = a /\ head_inset T c = b.
Proof.
  intros Ha Hb Hpa Hpb Hlen.
  assert (Htail : tail_inset T c = a).
  { unfold tail_inset. rewrite Ha.
    destruct (Qeq_bool a 0) eqn:E0.
    - apply Qeq_bool_iff in E0. rewrite E0 in Hpa. discriminate.
    - destruct (Qle_bool (a * a) (display_len2 T c)) eqn:E1; [reflexivity|].
      apply Qle_bool_false_lt in E1. exfalso. nra. }
  split; [exact Htail|].
  unfold head_inset. rewrite Htail, Hb.
  destruct (Qeq_bool b 0) eqn:E0.
  - apply Qeq_bool_iff in E0. rewrite E0 in Hpb. discriminate.
  - destruct (Qle_bool ((a + b) * (a + b)) (display_len2 T c)) eqn:E1; [reflexivity|].
    apply Qle_bool_false_lt in E1. exfalso. lra.
Qed.

(** A connector that was not asked to shrink is drawn from anchor to anchor. *)
Lemma insets_without_shrink (T : Scale) (c : connection_patch) :
  get_shrinkA c = 0 -> get_shrinkB c = 0 ->
  tail_inset T c = 0 /\ head_inset T c = 0.
Proof.
  intros Ha Hb. unfold head_inset, tail_inset. rewrite Ha, Hb. split; reflexivity.
Qed.

(** With [rad = 0] the curve of ["arc3"] is the straight segment. *)
Lemma arc3_zero_is_segment (p q : Point) (t : Q) :
  peq (bezier2 p (arc3_control 0 p q) q t) (lerp p q t).
Proof.
  destruct p as [px py], q as [qx qy].
  unfold peq, bezier2, arc3_control, lerp; simpl. split; field.
Qed.

Lemma straight_path (T : Scale) (c : connection_patch) (t : Q) :
  get_connectionstyle c = ("arc3", 0) ->
  exists p, path_point T c t = Some p /\
            peq p (lerp (display T (xyA c)) (display T (xyB c)) t).
Proof.
  intros H. unfold path_point. rewrite H. simpl.
  eexists. split; [reflexivity|]. apply arc3_zero_is_segment.
Qed.

(** *** What the two figures hold *)

Lemma current_connectors :
  connectors current_figure =
  [Current.arrow1; Current.arrow2; Current.arrow3; Current.client_arrow].
Proof. vm_compute. reflexivity. Qed.

Lemma proposed_connectors :
  connectors proposed_figure =
  [Proposed.ipc_arrow1; Proposed.ipc_arrow2; Proposed.ipc_arrow3;
   Proposed.ipc_arrow4; Proposed.client_arrow1; Proposed.client_arrow2;
   Proposed.db_arrow; Proposed.file_arrow; Proposed.separation_line].
Proof. vm_compute. reflexivity. Qed.

(** A connector of either figure is the dashed separation line or an
    arrow that shrinks by 5 points at both ends; all are straight. *)
Lemma connector_cases (c : connection_patch) :
  In c (connectors current_figure) \/ In c (connectors proposed_figure) ->
  get_connectionstyle c = ("arc3", 0) /\
  ((get_arrowstyle c = "->" /\ get_shrinkA c = 5 /\ get_shrinkB c = 5) \/
   (c = Proposed.separation_line /\ get_arrowstyle c = "-" /\
    get_shrinkA c = 0 /\ get_shrinkB c = 0)).
Proof.
  rewrite current_connectors, proposed_connectors. simpl.
  intros H.
  repeat match goal with
         | H : _ \/ _ |- _ => destruct H as [H|H]
         | H : False |- _ => destruct H
         end; subst c; (split; [reflexivity|]);
    first [ left; repeat split; reflexivity
          | right; repeat split; reflexivity ].
Qed.

(** The length on the page of the connector between (0.8, 7) and (1, 7). *)
Lemma client_arrow_len2 (T : Scale) :
  display_len2 T Current.client_arrow == (sx T * 0.2) * (sx T * 0.2).
Proof. unfold display_len2, dist2, display; simpl. field. Qed.

(** ** Connectors *)

(** C1, as stated, fails: at the scale of the page the connector
    requested between (0.8, 7) and (1, 7) is drawn 5 points short of
    each of its two anchors, so its ends are not within one point of
    the coordinates passed to the call. *)
Lemma C1_ends_displaced :
  In Current.client_arrow (connectors current_figure) /\
  tail_inset page_scale Current.client_arrow = 5 /\
  head_inset page_scale Current.client_arrow = 5 /\
  ~ endpoints_verbatim 1 current_figure.
Proof.
  assert (Hin : In Current.client_arrow (connectors current_figure)).
  { rewrite current_connectors. simpl. auto. }
  assert (Htail : tail_inset page_scale Current.client_arrow = 5)
    by (vm_compute; reflexivity).
  assert (Hhead : head_inset page_scale Current.client_arrow = 5)
    by (vm_compute; reflexivity).
  split; [exact Hin|]. split; [exact Htail|]. split; [exact Hhead|].
  intros Hall.
  assert (Hsx : 0 < sx page_scale) by (vm_compute; reflexivity).
  assert (Hsy : 0 < sy page_scale) by (vm_compute; reflexivity).
  destruct (Hall page_scale Current.client_arrow Hsx Hsy Hin) as [Hle _].
  rewrite Htail in Hle. revert Hle. vm_compute. intros Hle. apply Hle. reflexivity.
Qed.

(** C1, amended: every connector of either script keeps the two points
    of its call as anchors and follows the straight segment between
    them, from the first at parameter 0 to the second at parameter 1;
    every arrow is asked to shrink by 5 points at both ends, so a drawn
    arrow that is at least 10 points long on the page stops 5 points
    short of each anchor; only the dashed separation line, which does
    not shrink, is drawn from anchor to anchor.  The connector between
    (0.8, 7) and (1, 7) has these two anchors and is drawn 5 points
    short of each wherever a data unit takes at least 50 points. *)
Theorem C1_connector_ends (c : connection_patch) (T : Scale)
  (Hc : In c (connectors current_figure) \/ In c (connectors proposed_figure)) :
  (forall t, exists p,
      path_point T c t = Some p /\
      peq p (lerp (display T (xyA c)) (display T (xyB c)) t)) /\
  (get_arrowstyle c = "->" ->
   get_shrinkA c = 5 /\ get_shrinkB c = 5 /\
   (100 <= display_len2 T c -> tail_inset T c = 5 /\ head_inset T c = 5)) /\
  (get_arrowstyle c = "-" ->
   c = Proposed.separation_line /\ tail_inset T c = 0 /\ head_inset T c = 0) /\
  (c = Current.client_arrow ->
   xyA c = (0.8, 7) /\ xyB c = (1, 7) /\
   (50 <= sx T -> tail_inset T c = 5 /\ head_inset T c = 5)).
Proof.
  destruct (connector_cases c Hc) as [Hstyle Hkind].
  split; [intros t; apply straight_path; exact Hstyle|].
  split; [|split].
  - intros Harrow. destruct Hkind as [(_ & Ha & Hb)|(_ & Hline & _)].
    + repeat split; try assumption;
        apply (insets_of_shrink T c 5 5); try assumption; try reflexivity;
        (setoid_replace ((5 + 5) * (5 + 5)) with 100 by reflexivity); assumption.
    + rewrite Hline in Harrow. discriminate.
  - intros Hplain. destruct Hkind as [(Harrow & _)|(Hsep & _ & Ha & Hb)].
    + rewrite Harrow in Hplain. discriminate.
    + split; [exact Hsep|]. apply insets_without_shrink; assumption.
  - intros ->. repeat split;
      apply (insets_of_shrink T Current.client_arrow 5 5); try reflexivity;
      rewrite client_arrow_len2; nra.
Qed.

Lemma C1_connector_ends_witness :
  tail_inset page_scale Current.client_arrow = 5 /\
  head_inset page_scale Current.client_arrow = 5.
Proof.
  assert (Hin : In Current.client_arrow (connectors current_figure) \/
                In Current.client_arrow (connectors proposed_figure)).
  { left. vm_compute. right. right. right. left. reflexivity. }
  apply (C1_connector_ends Current.client_arrow page_scale Hin).
  - reflexivity.
  - vm_compute. discriminate.
Defined.

(** C9, as stated, fails: at the scale of the page the arrow of the
    proposed diagram from (6.75, 7) to (7, 7) carries its head at the
    end of its second point, but that end of the drawn line, and the
    head with it, is 5 points short of the point; the head is not
    within one point of the destination. *)
Lemma C9_head_short_of_destination :
  In Proposed.ipc_arrow2 (connectors proposed_figure) /\
  get_arrowstyle Proposed.ipc_arrow2 = "->" /\
  xyB Proposed.ipc_arrow2 = (7, 7) /\
  arrow_heads Proposed.ipc_arrow2 = (false, true) /\
  head_inset proposed_page_scale Proposed.ipc_arrow2 = 5 /\
  ~ heads_at_destination 1 proposed_figure.
Proof.
  assert (Hin : In Proposed.ipc_arrow2 (connectors proposed_figure)).
  { rewrite proposed_connectors. simpl. auto. }
  assert (Hhead : head_inset proposed_page_scale Proposed.ipc_arrow2 = 5)
    by (vm_compute; reflexivity).
  split; [exact Hin|]. split; [reflexivity|]. split; [reflexivity|].
  split; [reflexivity|]. split; [exact Hhead|].
  intros Hall.
  assert (Hsx : 0 < sx proposed_page_scale) by (vm_compute; reflexivity).
  assert (Hsy : 0 < sy proposed_page_scale) by (vm_compute; reflexivity).
  destruct (Hall proposed_page_scale Proposed.ipc_arrow2 Hsx Hsy Hin eq_refl)
    as [_ Hle].
  rewrite Hhead in Hle. revert Hle. vm_compute. intros Hle. apply Hle. reflexivity.
Qed.

(** C9, amended: every connector of either script follows the straight
    segment between the two points it was given, whatever the scale,
    with no routing; every connector is an arrow of style [->] except
    the dashed separation line, which carries no head and is drawn
    from point to point; an arrow carries exactly one head, at the
    end of the drawn line that faces its second point, and since every
    arrow shrinks by 5 points at both ends, an arrow that is at least
    10 points long on the page is drawn from 5 points after its first
    point to 5 points before its second point: its head sits on the
    segment 5 points short of the destination, not at it. *)
Theorem C9_straight_head_short (c : connection_patch) (T : Scale) (t : Q)
  (Hc : In c (connectors current_figure) \/ In c (connectors proposed_figure)) :
  (exists p,
      path_point T c t = Some p /\
      peq p (lerp (display T (xyA c)) (display T (xyB c)) t)) /\
  (get_arrowstyle c = "->" \/
   (c = Proposed.separation_line /\ head_count c = 0%nat /\
    tail_inset T c = 0 /\ head_inset T c = 0)) /\
  (get_arrowstyle c = "->" ->
   arrow_heads c = (false, true) /\ head_count c = 1%nat /\
   get_shrinkA c = 5 /\ get_shrinkB c = 5 /\
   (100 <= display_len2 T c -> tail_inset T c = 5 /\ head_inset T c = 5)).
Proof.
  destruct (connector_cases c Hc) as [Hstyle Hkind].
  split; [apply straight_path; exact Hstyle|]. split.
  - destruct Hkind as [(Harrow & _)|(Hsep & _ & Ha & Hb)].
    + left. exact Harrow.
    + right. split; [exact Hsep|]. split; [rewrite Hsep; reflexivity|].
      apply insets_without_shrink; assumption.
  - intros Harrow. destruct Hkind as [(_ & Ha & Hb)|(_ & Hline & _)].
    + split; [unfold arrow_heads; rewrite Harrow; reflexivity|].
      split; [unfold head_count, arrow_heads; rewrite Harrow; reflexivity|].
      split; [exact Ha|]. split; [exact Hb|].
      intros Hlen. apply (insets_of_shrink T c 5 5); try assumption; reflexivity.
    + rewrite Hline in Harrow. discriminate.
Qed.

Lemma C9_straight_head_short_witness :
  arrow_heads Proposed.ipc_arrow2 = (false, true) /\
  head_count Proposed.ipc_arrow2 = 1%nat /\
  tail_inset proposed_page_scale Proposed.ipc_arrow2 = 5 /\
  head_inset proposed_page_scale Proposed.ipc_arrow2 = 5.
Proof.
  assert (Hin : In Proposed.ipc_arrow2 (connectors current_figure) \/
                In Proposed.ipc_arrow2 (connectors proposed_figure)).
  { right. vm_compute. right. left. reflexivity. }
  destruct (C9_straight_head_short Proposed.ipc_arrow2 proposed_page_scale 0.5 Hin)
    as (_ & _ & Harrow).
  destruct (Harrow eq_refl) as (Hheads & Hcount & _ & _ & Hlen).
  assert (H100 : 100 <= display_len2 proposed_page_scale Proposed.ipc_arrow2).
  { vm_compute. discriminate. }
  destruct (Hlen H100) as [Htail Hhead].
  split; [exact Hheads|]. split; [exact Hcount|]. split; [exact Htail|exact Hhead].
Defined.

(** ** Drawing order *)

Lemma insert_patch_front (a : Artist) (l : list Artist) :
  get_zorder a = 1 ->
  Forall (fun b => get_zorder b = 1 \/ get_zorder b = 3) l ->
  insert_by_zorder a l = a :: l.
Proof.
  intros Ha Hl. destruct l as [|b rest]; [reflexivity|].
  cbn [insert_by_zorder]. rewrite Ha.
  inversion Hl as [|? ? [Hb|Hb] _]; subst; rewrite Hb; reflexivity.
Qed.

Lemma insert_text_after_patches (a : Artist) (ps ts : list Artist) :
  get_zorder a = 3 ->
  Forall (fun b => get_zorder b = 1) ps ->
  Forall (fun b => get_zorder b = 3) ts ->
  insert_by_zorder a (ps ++ ts) = (ps ++ a :: ts)%list.
Proof.
  intros Ha Hps Hts. induction Hps as [|p ps Hp _ IH]; cbn [app insert_by_zorder].
  - destruct ts as [|t ts']; [reflexivity|].
    cbn [insert_by_zorder]. rewrite Ha.
    inversion Hts as [|? ? Ht _]; subst. rewrite Ht. reflexivity.
  - rewrite Ha, Hp. change (Qle_bool 3 1) with false. cbv iota.
    rewrite IH. reflexivity.
Qed.

Lemma filter_layer (l : list Artist) :
  default_layers l ->
  Forall (fun b => get_zorder b = 1) (filter is_patch l) /\
  Forall (fun b => get_zorder b = 3) (filter is_text l).
Proof.
  unfold default_layers, is_patch. induction 1 as [|a l Ha _ [IHp IHt]]; simpl.
  - split; constructor.
  - destruct (is_text a); simpl; split; try constructor; assumption.
Qed.

(** With every artist at the layer of its class, the stable sort by
    layer paints all patches first, then all texts, each group in the
    order of insertion. *)
Lemma render_order_default (l : list Artist) :
  default_layers l ->
  fold_right insert_by_zorder [] l = (filter is_patch l ++ filter is_text l)%list.
Proof.
  intros Hl. induction Hl as [|a l Ha Hl IH]; [reflexivity|].
  simpl. rewrite IH. destruct (filter_layer l Hl) as [Hp Ht].
  unfold is_patch in *. destruct (is_text a) eqn:Ea; simpl.
  - apply insert_text_after_patches; assumption.
  - apply insert_patch_front; [assumption|].
    apply Forall_app. split.
    + eapply Forall_impl; [|exact Hp]. intros; left; assumption.
    + eapply Forall_impl; [|exact Ht]. intros; right; assumption.
Qed.

Lemma figures_default_layers :
  default_layers (children current_figure) /\
  default_layers (children proposed_figure).
Proof.
  split; unfold default_layers; apply Forall_forall; intros a Ha;
    vm_compute in Ha;
    repeat (destruct Ha as [Ha|Ha]; [subst a; reflexivity|]);
    destruct Ha.
Qed.

Lemma enumerate_from_nth {A : Type} (l : list A) (k i : nat) (a : A) :
  nth_error l i = Some a -> In ((k + i)%nat, a) (enumerate_from k l).
Proof.
  revert k i. induction l as [|x l IH]; intros k i H.
  - destruct i; discriminate.
  - destruct i as [|i]; simpl in *.
    + injection H as ->. left. f_equal. lia.
    + right. replace (k + S i)%nat with (S k + i)%nat by lia. apply IH. exact H.
Qed.

Lemma layered_sound (l : list Artist) : layered l = true -> boxes_below l.
Proof.
  unfold layered, boxes_below. intros H i j b e Hi Hj.
  rewrite forallb_forall in H.
  specialize (H (i, BoxArtist b) (enumerate_from_nth l 0 i _ Hi)).
  rewrite forallb_forall in H.
  specialize (H (j, e) (enumerate_from_nth l 0 j _ Hj)).
  unfold layered_pair in H. simpl in H.
  destruct e as [t|b'|c]; [exact I| |apply Nat.ltb_lt; exact H].
  intros Hij Hin. destruct (Nat.eqb_spec i j) as [->|_]; [contradiction|].
  rewrite Hin in H. apply Nat.ltb_lt. exact H.
Qed.

(** C4, as stated, fails: in the current diagram the label of the
    audit layer is added before the second arrow, the arrow runs
    through the anchor of the label, and yet the label is painted
    after the arrow, that is over it; the figure is not painted in
    insertion order. *)
Lemma C4_label_over_later_arrow :
  nth_error (children current_figure) 14 = Some (TextArtist audit_layer_label) /\
  nth_error (children current_figure) 27 = Some (ConnArtist Current.arrow2) /\
  runs_through Current.arrow2 audit_layer_label = true /\
  nth_error (render_order current_figure) 13 = Some (ConnArtist Current.arrow2) /\
  nth_error (render_order current_figure) 23 = Some (TextArtist audit_layer_label) /\
  ~ drawn_in_insertion_order current_figure.
Proof.
  repeat (split; [vm_compute; reflexivity|]).
  unfold drawn_in_insertion_order. intros H.
  assert (Hn : nth_error (render_order current_figure) 0 =
               nth_error (children current_figure) 0) by (rewrite H; reflexivity).
  vm_compute in Hn. discriminate Hn.
Qed.

(** C4, amended: in either diagram the artists are painted by layer,
    all boxes and connectors first and all texts over them, and within
    each of the two groups in the order of insertion, a later one over
    an earlier one; every box is inserted, and painted, before every
    connector and before every box whose outline lies inside its own,
    so each container lies under its chips and under the connectors. *)
Theorem C4_painted_by_layer (f : Figure)
  (Hf : f = current_figure \/ f = proposed_figure) :
  render_order f =
    (filter is_patch (children f) ++ filter is_text (children f))%list /\
  boxes_below (children f) /\
  boxes_below (render_order f).
Proof.
  destruct figures_default_layers as [Hc Hp].
  split; [|split].
  - destruct Hf as [-> | ->]; apply render_order_default; assumption.
  - apply layered_sound. destruct Hf as [-> | ->]; vm_compute; reflexivity.
  - apply layered_sound. destruct Hf as [-> | ->]; vm_compute; reflexivity.
Qed.

Lemma C4_painted_by_layer_witness : (3 < 5)%nat.
Proof.
  assert (Hf : current_figure = current_figure \/ current_figure = proposed_figure)
    by (left; reflexivity).
  destruct (C4_painted_by_layer current_figure Hf) as [_ [Hbelow _]].
  assert (Hi : nth_error (children current_figure) 3 =
               Some (BoxArtist Current.mitm_box)) by (vm_compute; reflexivity).
  assert (Hj : nth_error (children current_figure) 5 =
               Some (BoxArtist (Current.comp_box 1.5 6.8))).
  { vm_compute. reflexivity. }
  apply (Hbelow 3%nat 5%nat _ _ Hi Hj).
  - discriminate.
  - vm_compute. reflexivity.
Defined.

(** ** Boxes, chips and labels *)

(** Padding enlarges the outline on every side and keeps its center:
    the center of what is drawn is the lower-left corner moved by half
    the extent. *)
Lemma box_center (b : fancy_bbox_patch) :
  peq (rect_center (box_outline b))
      (fst (xy b) + width b / 2, snd (xy b) + height b / 2) /\
  peq (rect_center (box_rect b))
      (fst (xy b) + width b / 2, snd (xy b) + height b / 2).
Proof.
  unfold peq, rect_center, box_outline, box_rect; simpl.
  repeat split; field.
Qed.

Lemma current_chip_centered (x y : Q) :
  peq (rect_center (box_outline (Current.comp_box x y))) (x, y).
Proof. unfold peq, rect_center, box_outline; simpl. split; field. Qed.

Lemma rust_chip_centered (x y : Q) :
  peq (rect_center (box_outline (Proposed.rust_comp_box x y))) (x, y).
Proof. unfold peq, rect_center, box_outline; simpl. split; field. Qed.

Lemma java_chip_centered (x y : Q) :
  peq (rect_center (box_outline (Proposed.java_comp_box x y))) (x, y).
Proof. unfold peq, rect_center, box_outline; simpl. split; field. Qed.

(** Where the chips sit among the artists of the two figures. *)
Lemma current_chips :
  slice 5 8 (children current_figure) = flat_map current_chip Current.mitm_components /\
  slice 15 8 (children current_figure) = flat_map current_chip Current.audit_components.
Proof. split; vm_compute; reflexivity. Qed.

Lemma proposed_chips :
  slice 3 10 (children proposed_figure) = flat_map rust_chip Proposed.rust_components /\
  slice 15 15 (children proposed_figure) = flat_map java_chip Proposed.java_components.
Proof. split; vm_compute; reflexivity. Qed.

(** The boxes of the two figures: the containers, as named in the
    scripts, and between them the boxes of the chips. *)
Lemma current_boxes :
  boxes current_figure =
  ([Current.main_box; Current.mitm_box]
   ++ map (fun c => Current.comp_box (snd (fst c)) (snd c)) Current.mitm_components
   ++ [Current.audit_box]
   ++ map (fun c => Current.comp_box (snd (fst c)) (snd c)) Current.audit_components
   ++ [Current.cred_box])%list.
Proof. vm_compute. reflexivity. Qed.

Lemma proposed_boxes :
  boxes proposed_figure =
  ([Proposed.rust_box]
   ++ map (fun c => Proposed.rust_comp_box (snd (fst c)) (snd c)) Proposed.rust_components
   ++ [Proposed.java_box]
   ++ map (fun c => Proposed.java_comp_box (snd (fst c)) (snd c)) Proposed.java_components
   ++ [Proposed.ipc_box])%list.
Proof. vm_compute. reflexivity. Qed.

(** C5, as stated, fails for containers: the position given for the
    main container of the current diagram is (0.5, 1), and the center
    of the rectangle drawn for it is (5, 4.75). *)
Lemma C5_container_not_centered :
  xy Current.main_box = (0.5, 1) /\
  peq (rect_center (box_outline Current.main_box)) (5, 4.75) /\
  ~ centered_at_given_position Current.main_box.
Proof.
  split; [reflexivity|]. split; [split; vm_compute; reflexivity|].
  unfold centered_at_given_position, peq. intros [Hx _].
  vm_compute in Hx. discriminate Hx.
Qed.

(** C5, amended: the position given for a box is the lower-left corner
    of its rectangle, so the rectangle drawn has its center at
    (x + w/2, y + h/2); its outline is the given width and height
    enlarged by the padding of its box style on every side, and it
    carries the fill, border and opacity given (the main container:
    fill #FF6B35, black border of width 2, opacity 0.3; a chip of the
    current diagram: white fill, black border of width 0.5, opaque).
    A chip with position (x, y) is given the corner (x - 0.4, y - h/2)
    and the extent 0.8 by h, so its rectangle is centered at (x, y),
    and the label of every chip is anchored at that center, centered
    in both directions. *)
Theorem C5_boxes_and_chips :
  (forall b : fancy_bbox_patch,
      peq (rect_center (box_outline b))
          (fst (xy b) + width b / 2, snd (xy b) + height b / 2) /\
      rw (box_outline b) == width b + 2 * bs_pad (get_boxstyle b) /\
      rh (box_outline b) == height b + 2 * bs_pad (get_boxstyle b)) /\
  (kw_facecolor (box_kw Current.main_box) = Some "#FF6B35" /\
   kw_edgecolor (box_kw Current.main_box) = Some "black" /\
   kw_linewidth (box_kw Current.main_box) = Some 2 /\
   kw_alpha (box_kw Current.main_box) = Some 0.3) /\
  (forall (comp : string) (x y : Q),
      let b := Current.comp_box x y in
      let l := Current.comp_label comp x y in
      peq (rect_center (box_outline b)) (x, y) /\
      width b = 0.8 /\ height b = 0.3 /\
      kw_facecolor (box_kw b) = Some "white" /\
      kw_edgecolor (box_kw b) = Some "black" /\
      kw_linewidth (box_kw b) = Some 0.5 /\
      kw_alpha (box_kw b) = None /\
      text_anchor l = (x, y) /\ get_ha l = "center" /\ get_va l = "center") /\
  (forall (comp : string) (x y : Q),
      let b := Proposed.rust_comp_box x y in
      let l := Proposed.rust_comp_label comp x y in
      peq (rect_center (box_outline b)) (x, y) /\
      width b = 0.8 /\ height b = 0.5 /\
      text_anchor l = (x, y) /\ get_ha l = "center" /\ get_va l = "center") /\
  (forall (comp : string) (x y : Q),
      let b := Proposed.java_comp_box x y in
      let l := Proposed.java_comp_label comp x y in
      peq (rect_center (box_outline b)) (x, y) /\
      width b = 0.8 /\ height b = 0.5 /\
      text_anchor l = (x, y) /\ get_ha l = "center" /\ get_va l = "center") /\
  slice 5 8 (children current_figure) = flat_map current_chip Current.mitm_components /\
  slice 15 8 (children current_figure) = flat_map current_chip Current.audit_components /\
  slice 3 10 (children proposed_figure) = flat_map rust_chip Proposed.rust_components /\
  slice 15 15 (children proposed_figure) = flat_map java_chip Proposed.java_components /\
  boxes current_figure =
    ([Current.main_box; Current.mitm_box]
     ++ map (fun c => Current.comp_box (snd (fst c)) (snd c)) Current.mitm_components
     ++ [Current.audit_box]
     ++ map (fun c => Current.comp_box (snd (fst c)) (snd c)) Current.audit_components
     ++ [Current.cred_box])%list /\
  boxes proposed_figure =
    ([Proposed.rust_box]
     ++ map (fun c => Proposed.rust_comp_box (snd (fst c)) (snd c)) Proposed.rust_components
     ++ [Proposed.java_box]
     ++ map (fun c => Proposed.java_comp_box (snd (fst c)) (snd c)) Proposed.java_components
     ++ [Proposed.ipc_box])%list.
Proof.
  split.
  { intros b. split; [apply box_center|]. split; reflexivity. }
  split.
  { repeat split; reflexivity. }
  split.
  { intros comp x y. cbv zeta. split; [apply current_chip_centered|].
    repeat split; reflexivity. }
  split.
  { intros comp x y. cbv zeta. split; [apply rust_chip_centered|].
    repeat split; reflexivity. }
  split.
  { intros comp x y. cbv zeta. split; [apply java_chip_centered|].
    repeat split; reflexivity. }
  destruct current_chips as [H1 H2]. destruct proposed_chips as [H3 H4].
  repeat (split; [assumption|]).
  split; [apply current_boxes|apply proposed_boxes].
Qed.

(** ** Canvas bounds *)

(** C8: the canvas of the current diagram is [0,10] x [0,10], that of
    the proposed diagram [0,12] x [0,10], and every coordinate given
    for an artist of either diagram lies in the canvas: the anchor of
    each text, the rectangle of each box and also its padded outline,
    both ends of each connector. *)
Theorem C8_within_canvas :
  xlim current_figure = (0, 10) /\ ylim current_figure = (0, 10) /\
  xlim proposed_figure = (0, 12) /\ ylim proposed_figure = (0, 10) /\
  Forall (fun a => artist_in_canvas current_figure a = true)
         (children current_figure) /\
  Forall (fun a => artist_in_canvas proposed_figure a = true)
         (children proposed_figure).
Proof.
  repeat (split; [vm_compute; reflexivity|]).
  split; apply Forall_forall; apply forallb_forall; vm_compute; reflexivity.
Qed.

(** ** Chip labels *)

Lemma append_snoc (cur rest : string) (d : ascii) :
  ((cur ++ String d "") ++ rest)%string = (cur ++ String d rest)%string.
Proof. induction cur as [|e cur IH]; simpl; congruence. Qed.

Lemma split_go_first (c : ascii) (s cur : string) :
  first (split_go (String c "") s 0 cur) = (cur ++ before_first c s)%string.
Proof.
  revert cur. induction s as [|d s IH]; intros cur.
  - simpl. unfold first. simpl. induction cur as [|e cur IHc]; simpl; congruence.
  - cbn [split_go prefix before_first].
    destruct (ascii_dec c d) as [->|Hne].
    + rewrite Ascii.eqb_refl.
      replace (prefix "" s) with true by (destruct s; reflexivity).
      unfold first. simpl.
      induction cur as [|e cur IHc]; simpl; congruence.
    + destruct (Ascii.eqb d c) eqn:E.
      * apply Ascii.eqb_eq in E. congruence.
      * rewrite IH. apply append_snoc.
Qed.

(** [s.split(c)[0]] for a separator of one character is [s] truncated
    at the first occurrence of that character. *)
Lemma split_first (c : ascii) (s : string) :
  first (split (String c "") s) = before_first c s.
Proof. unfold split. rewrite split_go_first. reflexivity. Qed.

(** C10: in the current diagram the text of every chip is its component
    string truncated at the first '.', so 'MonitorSSHAudit.java' is
    drawn as 'MonitorSSHAudit'; in the proposed diagram the text of
    every Java chip is its component string up to the first newline,
    and a separate text '(UNCHANGED)', in italics, is anchored 0.15
    below the center of the chip; the chips of the figures are the
    artists these loop bodies add. *)
Theorem C10_chip_labels :
  (forall (comp : string) (x y : Q),
      text_s (Current.comp_label comp x y) = before_first "." comp) /\
  text_s (Current.comp_label "MonitorSSHAudit.java" 1.5 6.8) = "MonitorSSHAudit" /\
  map (fun c => text_s (Current.comp_label (fst (fst c)) (snd (fst c)) (snd c)))
      (Current.mitm_components ++ Current.audit_components) =
    ["MonitorSSHAudit"; "MonitorVNCAudit"; "Rdp2ProxyHandler"; "SessionInfo";
     "AuditFile"; "DatabaseAuditWriter"; "TerminalAuditWriter";
     "GuessingConnectionLinker"] /\
  (forall (comp : string) (x y : Q),
      text_s (Proposed.java_comp_label comp x y) =
        before_first (ascii_of_nat 10) comp /\
      text_s (Proposed.java_comp_tag x y) = "(UNCHANGED)" /\
      get_style (Proposed.java_comp_tag x y) = "italic" /\
      text_anchor (Proposed.java_comp_tag x y) = (x, y - 0.15) /\
      peq (rect_center (box_outline (Proposed.java_comp_box x y))) (x, y)) /\
  map (fun c => text_s (Proposed.java_comp_label (fst (fst c)) (snd (fst c)) (snd c)))
      Proposed.java_components =
    ["AuditFile.java"; "DatabaseAuditWriter.java"; "TerminalAuditWriter.java";
     "GuessingConnectionLinker.java"; "CredentialInjectionService.java"] /\
  slice 5 8 (children current_figure) = flat_map current_chip Current.mitm_components /\
  slice 15 8 (children current_figure) = flat_map current_chip Current.audit_components /\
  slice 15 15 (children proposed_figure) = flat_map java_chip Proposed.java_components.
Proof.
  split.
  { intros comp x y. apply split_first. }
  split; [vm_compute; reflexivity|].
  split; [vm_compute; reflexivity|].
  split.
  { intros comp x y. split; [apply split_first|].
    repeat split; try reflexivity; apply java_chip_centered. }
  split; [vm_compute; reflexivity|].
  destruct current_chips as [H1 H2]. destruct proposed_chips as [_ H4].
  repeat split; assumption.
Qed.

(** ** Running the scripts in any world *)

Lemma update_last {A : Type} (l : list A) (x : A) (g : A -> A) :
  update (List.length l) g (l ++ [x]) = (l ++ [g x])%list.
Proof. induction l as [|y l IH]; simpl; congruence. Qed.

Lemma nth_update (l : list Figure) (n : nat) (g : Figure -> Figure) (d : Figure) :
  (n < List.length l)%nat -> nth n (update n g l) d = g (nth n l d).
Proof.
  revert n. induction l as [|y l IH]; intros n Hn; simpl in Hn; [lia|].
  destruct n as [|n]; simpl; [reflexivity|]. apply IH. lia.
Qed.

(** An axes method on the figure that was opened last. *)
Lemma bind_on_axes_alloc {B : Type} (w : World) (f : Figure) (g : Figure -> Figure)
      (k : unit -> M B) :
  bind (on_axes (List.length (heap w)) g) k (alloc f w) = k tt (alloc (g f) w).
Proof.
  unfold bind, on_axes, alloc, set_heap. simpl. rewrite update_last. reflexivity.
Qed.

Lemma on_axes_alloc (w : World) (f : Figure) (g : Figure -> Figure) :
  on_axes (List.length (heap w)) g (alloc f w) = (alloc (g f) w, Return tt).
Proof.
  unfold on_axes, alloc, set_heap. simpl. rewrite update_last. reflexivity.
Qed.

Lemma bind_assoc {A B C : Type} (m : M A) (f : A -> M B) (k : B -> M C) (w : World) :
  bind (bind m f) k w = bind m (fun a => bind (f a) k) w.
Proof. unfold bind. destruct (m w) as [w' [a|e]]; reflexivity. Qed.

Lemma bind_ret {A B : Type} (a : A) (k : A -> M B) (w : World) :
  bind (ret a) k w = k a w.
Proof. reflexivity. Qed.

Lemma gcf_alloc (w : World) (f : Figure) :
  gcf (alloc f w) = (alloc f w, Return (List.length (heap w))).
Proof. unfold gcf, alloc. simpl. rewrite rev_unit. reflexivity. Qed.

(** The last four statements of both scripts, run on a figure that
    was just built. *)
Lemma export_tail (w : World) (f : Figure) (path line : string) (kws : list Kw) :
  bind plt_tight_layout (fun _ =>
    bind (plt_savefig path kws) (fun _ => bind plt_close (fun _ => print line)))
    (alloc f w) =
  if writable w path
  then (exported path line kws (fig_tight_layout f) w, Return tt)
  else (alloc (fig_tight_layout f) w, Raise (OSError path)).
Proof.
  unfold plt_tight_layout. rewrite bind_assoc. unfold bind at 1. rewrite gcf_alloc.
  rewrite bind_on_axes_alloc.
  unfold plt_savefig. rewrite bind_assoc. unfold bind at 1. rewrite gcf_alloc.
  unfold bind, plt_close, print, exported, alloc, set_files, set_open_figs, set_stdout.
  simpl. destruct (writable w path); simpl.
  - rewrite removelast_last. rewrite nth_middle. reflexivity.
  - reflexivity.
Qed.

Ltac script_step :=
  first [ rewrite bind_on_axes_alloc
        | rewrite on_axes_alloc
        | rewrite bind_assoc
        | rewrite bind_ret
        | progress cbn [for_ enumerate enumerate_from]
        | progress cbv beta iota ].

Ltac run_script :=
  unfold bind at 1; unfold plt_subplots;
  unfold ax_set_xlim, ax_set_ylim, ax_axis, ax_text, ax_add_patch, ax_add_artist;
  repeat script_step;
  rewrite export_tail.

(** What the current script does to any world: it builds the same
    figure, and then either saves it, closes it and prints its line,
    or stops at the failed write with the figure still open. *)
Lemma run_current (w : World) :
  Current.main w =
  if writable w Current.output_path
  then (exported Current.output_path Current.confirmation
                 [dpi 300; bbox_inches "tight"] current_figure w, Return tt)
  else (alloc current_figure w, Raise (OSError Current.output_path)).
Proof.
  unfold Current.main, Current.mitm_components, Current.audit_components.
  run_script.
  match goal with
  | |- (if _ then (exported _ _ _ ?F _, _) else _) = _ =>
      replace F with current_figure by (vm_compute; reflexivity)
  end.
  reflexivity.
Qed.

Lemma run_proposed (w : World) :
  Proposed.main w =
  if writable w Proposed.output_path
  then (exported Proposed.output_path Proposed.confirmation
                 [dpi 300; bbox_inches "tight"] proposed_figure w, Return tt)
  else (alloc proposed_figure w, Raise (OSError Proposed.output_path)).
Proof.
  unfold Proposed.main, Proposed.rust_components, Proposed.java_components,
    Proposed.ipc_components.
  run_script.
  match goal with
  | |- (if _ then (exported _ _ _ ?F _, _) else _) = _ =>
      replace F with proposed_figure by (vm_compute; reflexivity)
  end.
  reflexivity.
Qed.

Lemma lookup_written (p : string) (i : Image) (fs : list (string * Image)) :
  lookup_file p (write_file p i fs) = Some i.
Proof. unfold write_file. simpl. rewrite String.eqb_refl. reflexivity. Qed.

(** ** Export *)

(** C7: in a world where its output path can be written, each script
    writes exactly one file, at its fixed path, holding the figure at
    300 dpi with the bounding box tightened, then prints exactly one
    line, its confirmation, and ends normally: the file system gains
    that one entry and the output that one line. *)
Theorem C7_one_file_one_line (w : World) :
  (writable w Current.output_path = true ->
   snd (Current.main w) = Return tt /\
   files (fst (Current.main w)) =
     write_file "docs/analysis/current-architecture.png" current_image (files w) /\
   image_dpi current_image = 300 /\
   image_bbox_inches current_image = "tight" /\
   stdout (fst (Current.main w)) = (stdout w ++ [Current.confirmation])%list) /\
  (writable w Proposed.output_path = true ->
   snd (Proposed.main w) = Return tt /\
   files (fst (Proposed.main w)) =
     write_file "docs/analysis/proposed-architecture.png" proposed_image (files w) /\
   image_dpi proposed_image = 300 /\
   image_bbox_inches proposed_image = "tight" /\
   stdout (fst (Proposed.main w)) = (stdout w ++ [Proposed.confirmation])%list).
Proof.
  split; intros Hw.
  - rewrite run_current, Hw. repeat split.
  - rewrite run_proposed, Hw. repeat split.
Qed.

Lemma C7_one_file_one_line_witness :
  files (fst (Current.main (empty_world all_writable))) =
    [("docs/analysis/current-architecture.png", current_image)] /\
  stdout (fst (Current.main (empty_world all_writable))) = [Current.confirmation].
Proof.
  destruct (C7_one_file_one_line (empty_world all_writable)) as [Hc _].
  destruct (Hc eq_refl) as (_ & Hfiles & _ & _ & Hout).
  split; [exact Hfiles|exact Hout].
Defined.

(** C3, as stated, fails: where the output path cannot be written the
    current script ends with the error of the write, and the figure it
    opened is still open. *)
Lemma C3_figure_left_open :
  snd (Current.main (empty_world none_writable)) =
    Raise (OSError "docs/analysis/current-architecture.png") /\
  open_figs (empty_world none_writable) = [] /\
  open_figs (fst (Current.main (empty_world none_writable))) = [0%nat] /\
  ~ canvas_released Current.main (empty_world none_writable).
Proof.
  repeat (split; [vm_compute; reflexivity|]).
  unfold canvas_released. vm_compute. discriminate.
Qed.

(** C3, amended: when the export succeeds, each script closes its
    figure after it, leaving open exactly the figures that were open
    before; when the write fails, the error leaves the script before
    the figure is closed: the script ends with that error, the figure
    stays open, no file is written and nothing is printed. *)
Theorem C3_released_on_success (w : World) :
  (writable w Current.output_path = true ->
   snd (Current.main w) = Return tt /\ canvas_released Current.main w) /\
  (writable w Current.output_path = false ->
   snd (Current.main w) = Raise (OSError Current.output_path) /\
   open_figs (fst (Current.main w)) = (open_figs w ++ [List.length (heap w)])%list /\
   files (fst (Current.main w)) = files w /\
   stdout (fst (Current.main w)) = stdout w) /\
  (writable w Proposed.output_path = true ->
   snd (Proposed.main w) = Return tt /\ canvas_released Proposed.main w) /\
  (writable w Proposed.output_path = false ->
   snd (Proposed.main w) = Raise (OSError Proposed.output_path) /\
   open_figs (fst (Proposed.main w)) = (open_figs w ++ [List.length (heap w)])%list /\
   files (fst (Proposed.main w)) = files w /\
   stdout (fst (Proposed.main w)) = stdout w).
Proof.
  unfold canvas_released.
  split; [|split; [|split]]; intros Hw;
    first [ rewrite run_current | rewrite run_proposed ];
    rewrite Hw; repeat split.
Qed.

Lemma C3_released_on_success_witness :
  snd (Current.main (empty_world all_writable)) = Return tt /\
  canvas_released Current.main (empty_world all_writable).
Proof.
  destruct (C3_released_on_success (empty_world all_writable)) as [Hc _].
  exact (Hc eq_refl).
Defined.

(** C2, as stated, fails: after the current script has exported its
    figure, a text added through the handle of that figure is accepted
    and lands in the figure; nothing is refused. *)
Lemma C2_populate_after_export_accepted :
  snd (Current.main (empty_world all_writable)) = Return tt /\
  snd (ax_text 0 5 5 "late" [] (fst (Current.main (empty_world all_writable)))) =
    Return tt /\
  children (figure_at
              (fst (ax_text 0 5 5 "late" []
                      (fst (Current.main (empty_world all_writable))))) 0) =
    (children current_figure ++ [TextArtist (Text 5 5 "late" [])])%list /\
  ~ populate_refused_after Current.main (empty_world all_writable).
Proof.
  repeat (split; [vm_compute; reflexivity|]).
  intros H.
  destruct (H 0%nat 5 5 "late" [] Current.main_box Current.arrow1) as [[e He] _].
  vm_compute in He. discriminate He.
Qed.

(** C2, amended: in either script every populate-phase operation comes
    before the export, so the image written holds the figure as the
    script leaves it; the operations themselves keep no record of an
    export: in any world, placing a box, drawing a connector or
    drawing a text returns normally, and on a handle of the world it
    adds the artist to the figure the handle refers to. *)
Theorem C2_no_populate_after_export (w : World) :
  (forall ax x y s kws b c,
      snd (ax_text ax x y s kws w) = Return tt /\
      snd (ax_add_patch ax b w) = Return tt /\
      snd (ax_add_artist ax c w) = Return tt) /\
  (forall ax a, (ax < List.length (heap w))%nat ->
      figure_at (fst (on_axes ax (fig_add a) w)) ax = fig_add a (figure_at w ax)) /\
  (writable w Current.output_path = true ->
   lookup_file Current.output_path (files (fst (Current.main w))) =
     Some current_image /\
   last_figure (fst (Current.main w)) = image_figure current_image) /\
  (writable w Proposed.output_path = true ->
   lookup_file Proposed.output_path (files (fst (Proposed.main w))) =
     Some proposed_image /\
   last_figure (fst (Proposed.main w)) = image_figure proposed_image).
Proof.
  split; [intros; repeat split|].
  split.
  { intros ax a Hax. unfold figure_at, on_axes, set_heap. simpl.
    apply nth_update. exact Hax. }
  split; intros Hw.
  - rewrite run_current, Hw. unfold last_figure, exported.
    cbn [fst files heap]. rewrite lookup_written, last_last. split; reflexivity.
  - rewrite run_proposed, Hw. unfold last_figure, exported.
    cbn [fst files heap]. rewrite lookup_written, last_last. split; reflexivity.
Qed.

Lemma C2_no_populate_after_export_witness :
  lookup_file Current.output_path
    (files (fst (Current.main (empty_world all_writable)))) = Some current_image /\
  last_figure (fst (Current.main (empty_world all_writable))) =
    image_figure current_image.
Proof.
  destruct (C2_no_populate_after_export (empty_world all_writable))
    as (_ & _ & Hc & _).
  exact (Hc eq_refl).
Defined.

(** C6: each script is deterministic.  In any two worlds where its
    output path can be written it leaves the same image at that path,
    with the same boxes, texts and connectors at the same places; in
    particular running the script again in the world the first run
    left behind writes the same image once more. *)
Theorem C6_same_image_every_run (w w' : World) :
  (writable w Current.output_path = true ->
   writable w' Current.output_path = true ->
   lookup_file Current.output_path (files (fst (Current.main w))) =
     Some current_image /\
   lookup_file Current.output_path (files (fst (Current.main w'))) =
     Some current_image /\
   lookup_file Current.output_path
     (files (fst (Current.main (fst (Current.main w))))) = Some current_image) /\
  (writable w Proposed.output_path = true ->
   writable w' Proposed.output_path = true ->
   lookup_file Proposed.output_path (files (fst (Proposed.main w))) =
     Some proposed_image /\
   lookup_file Proposed.output_path (files (fst (Proposed.main w'))) =
     Some proposed_image /\
   lookup_file Proposed.output_path
     (files (fst (Proposed.main (fst (Proposed.main w))))) = Some proposed_image).
Proof.
  split; intros Hw Hw'.
  - assert (H1 : fst (Current.main w) =
                 exported Current.output_path Current.confirmation
                          [dpi 300; bbox_inches "tight"] current_figure w)
      by (rewrite run_current, Hw; reflexivity).
    repeat split.
    + rewrite H1. apply lookup_written.
    + rewrite run_current, Hw'. apply lookup_written.
    + rewrite run_current. rewrite H1 at 1. simpl writable. rewrite Hw.
      apply lookup_written.
  - assert (H1 : fst (Proposed.main w) =
                 exported Proposed.output_path Proposed.confirmation
                          [dpi 300; bbox_inches "tight"] proposed_figure w)
      by (rewrite run_proposed, Hw; reflexivity).
    repeat split.
    + rewrite H1. apply lookup_written.
    + rewrite run_proposed, Hw'. apply lookup_written.
    + rewrite run_proposed. rewrite H1 at 1. simpl writable. rewrite Hw.
      apply lookup_written.
Qed.

Lemma C6_same_image_every_run_witness :
  lookup_file Current.output_path
    (files (fst (Current.main (empty_world all_writable)))) = Some current_image /\
  lookup_file Current.output_path
    (files (fst (Current.main
                   (mkWorld [] [] [] all_writable ["earlier output"])))) =
    Some current_image /\
  lookup_file Current.output_path
    (files (fst (Current.main (fst (Current.main (empty_world all_writable)))))) =
    Some current_image.
Proof.
  destruct (C6_same_image_every_run
              (empty_world all_writable)
              (mkWorld [] [] [] all_writable ["earlier output"])) as [Hc _].
  exact (Hc eq_refl eq_refl).
Defined.

(** * Further properties of the code *)

(** ** Splitting strings *)

Lemma split_go_cons (sep s : string) (skip : nat) (cur : string) :
  exists p rest, split_go sep s skip cur = p :: rest.
Proof.
  revert skip cur. induction s as [|c s IH]; intros skip cur.
  - simpl. eauto.
  - cbn [split_go]. destruct skip as [|k]; [|apply IH].
    destruct (prefix sep (String c s)); [eauto|apply IH].
Qed.

(** X1: for a separator that is not empty, [s.split(sep)] is never the
    empty list, whatever the string, so taking its element 0, as the
    loops of the scripts do, never runs out of range; for the empty
    string the result is the list of the empty string alone.  (For the
    empty separator the call raises, and [split] does not describe
    it.) *)
Theorem split_never_empty (sep s : string) (Hsep : sep <> "") :
  split sep s <> [] /\
  (exists rest, split sep s = first (split sep s) :: rest) /\
  split sep "" = [""].
Proof.
  unfold split. destruct (split_go_cons sep s 0 "") as (p & rest & H).
  rewrite H. split; [discriminate|]. split; [|reflexivity].
  exists rest. reflexivity.
Qed.

Lemma split_never_empty_witness :
  split "." "AuditFile.java" <> [] /\
  (exists rest, split "." "AuditFile.java" =
                first (split "." "AuditFile.java") :: rest) /\
  split "." "" = [""].
Proof.
  apply (split_never_empty "." "AuditFile.java"). discriminate.
Defined.

Lemma join_cons (sep p q : string) (rest : list string) :
  join sep (p :: q :: rest) = (p ++ sep ++ join sep (q :: rest))%string.
Proof. reflexivity. Qed.

Lemma append_assoc (a b c : string) :
  ((a ++ b) ++ c)%string = (a ++ (b ++ c))%string.
Proof. induction a as [|x a IH]; simpl; congruence. Qed.

Lemma length_append_sum (a b : string) :
  String.length (a ++ b) = (String.length a + String.length b)%nat.
Proof. induction a as [|x a IH]; simpl; congruence. Qed.

Lemma prefix_split (sep s : string) :
  prefix sep s = true -> exists rest, s = (sep ++ rest)%string.
Proof.
  revert s. induction sep as [|a sep IH]; intros s H.
  - exists s. reflexivity.
  - destruct s as [|b s]; simpl in H; [discriminate|].
    destruct (ascii_dec a b) as [->|]; [|discriminate].
    destruct (IH s H) as [rest ->]. exists rest. reflexivity.
Qed.

(** Dropping the rest of a separator. *)
Lemma split_go_skip (sep suf rest cur : string) :
  split_go sep (suf ++ rest) (String.length suf) cur = split_go sep rest 0 cur.
Proof.
  induction suf as [|c suf IH]; simpl.
  - destruct rest; reflexivity.
  - exact IH.
Qed.

Lemma split_go_join (sep : string) (n : nat) :
  sep <> "" ->
  forall s cur, (String.length s <= n)%nat ->
                join sep (split_go sep s 0 cur) = (cur ++ s)%string.
Proof.
  intros Hsep. induction n as [|n IH]; intros s cur Hlen.
  - destruct s; [|simpl in Hlen; lia]. simpl.
    induction cur as [|e cur IHc]; simpl; congruence.
  - destruct s as [|c s].
    + simpl. induction cur as [|e cur IHc]; simpl; congruence.
    + cbn [split_go]. destruct (prefix sep (String c s)) eqn:Hp.
      * destruct (prefix_split _ _ Hp) as [rest Hrest].
        destruct sep as [|a sep']; [congruence|].
        simpl in Hrest. injection Hrest as Hc Hs. subst c s.
        replace (String.length (String a sep') - 1)%nat with (String.length sep')
          by (simpl; lia).
        rewrite split_go_skip.
        destruct (split_go_cons (String a sep') rest 0 "") as (p & l & Hpl).
        rewrite Hpl, join_cons, <- Hpl.
        rewrite IH.
        -- reflexivity.
        -- simpl in Hlen. rewrite length_append_sum in Hlen. lia.
      * rewrite IH by (simpl in Hlen; lia). apply append_snoc.
Qed.

(** X2: splitting loses nothing: for a separator that is not empty,
    joining the pieces of [s.split(sep)] with [sep] gives [s] back. *)
Theorem split_join_round_trip (sep s : string) (Hsep : sep <> "") :
  join sep (split sep s) = s.
Proof.
  unfold split. rewrite (split_go_join sep (String.length s) Hsep s "" (le_n _)).
  reflexivity.
Qed.

Lemma split_join_round_trip_witness :
  join "." (split "." "Rdp2ProxyHandler.java") = "Rdp2ProxyHandler.java".
Proof.
  apply (split_join_round_trip "." "Rdp2ProxyHandler.java"). discriminate.
Defined.

Lemma split_go_absent (c : ascii) (s cur : string) :
  occurs c s = false -> split_go (String c "") s 0 cur = [(cur ++ s)%string].
Proof.
  revert cur. induction s as [|d s IH]; intros cur H.
  - simpl. f_equal. induction cur as [|e cur IHc]; simpl; congruence.
  - simpl in H. apply orb_false_iff in H. destruct H as [Hd Hs].
    cbn [split_go prefix].
    destruct (ascii_dec c d) as [->|Hne].
    + rewrite Ascii.eqb_refl in Hd. discriminate.
    + rewrite (IH _ Hs). f_equal. apply append_snoc.
Qed.

(** X3: a string in which the separator character does not occur is
    not cut: the split has the string itself as its only piece, so a
    component name without a dot is drawn whole. *)
Theorem split_without_separator (c : ascii) (s : string)
  (Habsent : occurs c s = false) :
  split (String c "") s = [s] /\ first (split (String c "") s) = s.
Proof.
  unfold split. rewrite (split_go_absent c s "" Habsent). split; reflexivity.
Qed.

Lemma split_without_separator_witness :
  split "." "SessionInfo" = ["SessionInfo"] /\ first (split "." "SessionInfo") = "SessionInfo".
Proof.
  apply (split_without_separator "."%char "SessionInfo"). reflexivity.
Defined.

Lemma before_first_prefix (c : ascii) (s : string) :
  prefix (before_first c s) s = true.
Proof.
  induction s as [|d s IH]; [reflexivity|].
  simpl. destruct (Ascii.eqb d c); [reflexivity|].
  simpl. destruct (ascii_dec d d); [exact IH|congruence].
Qed.

Lemma before_first_clean (c : ascii) (s : string) :
  occurs c (before_first c s) = false.
Proof.
  induction s as [|d s IH]; [reflexivity|].
  simpl. destruct (Ascii.eqb d c) eqn:E; [reflexivity|].
  simpl. rewrite E, IH. reflexivity.
Qed.

(** X4: the text drawn for a chip, [comp.split(c)[0]], is always a
    prefix of the component string and never holds the separator
    character; it is the whole string exactly when the separator does
    not occur in it. *)
Theorem chip_text_is_clean_prefix (c : ascii) (comp : string) :
  prefix (first (split (String c "") comp)) comp = true /\
  occurs c (first (split (String c "") comp)) = false /\
  (first (split (String c "") comp) = comp <-> occurs c comp = false).
Proof.
  rewrite split_first.
  split; [apply before_first_prefix|]. split; [apply before_first_clean|].
  split.
  - intros H. rewrite <- H at 1. apply before_first_clean.
  - intros H. rewrite <- split_first. apply split_without_separator. exact H.
Qed.

(** ** Loops *)

Lemma enumerate_from_spec {A : Type} (l : list A) (k : nat) :
  map snd (enumerate_from k l) = l /\
  map fst (enumerate_from k l) = seq k (List.length l).
Proof.
  revert k. induction l as [|x l IH]; intros k; simpl; [split; reflexivity|].
  destruct (IH (S k)) as [H1 H2]. rewrite H1, H2. split; reflexivity.
Qed.

(** X5: [enumerate(l)] pairs every element of [l], in order, with its
    position counted from 0: the elements are those of [l], the
    positions are 0, 1, ..., len(l) - 1, and the empty list gives the
    empty list. *)
Theorem enumerate_positions {A : Type} (l : list A) :
  map snd (enumerate l) = l /\
  map fst (enumerate l) = seq 0 (List.length l) /\
  List.length (enumerate l) = List.length l /\
  enumerate (@nil A) = [].
Proof.
  destruct (enumerate_from_spec l 0) as [H1 H2]. unfold enumerate.
  split; [exact H1|]. split; [exact H2|]. split; [|reflexivity].
  rewrite <- (length_map snd), H1. reflexivity.
Qed.

Lemma with_added_nil (f : Figure) : with_added [] f = f.
Proof. unfold with_added. rewrite app_nil_r. destruct f; reflexivity. Qed.

Lemma with_added_app (l1 l2 : list Artist) (f : Figure) :
  with_added l2 (with_added l1 f) = with_added (l1 ++ l2) f.
Proof. unfold with_added. simpl. rewrite app_assoc. reflexivity. Qed.

Lemma fig_add_with_added (a : Artist) (f : Figure) : fig_add a f = with_added [a] f.
Proof. reflexivity. Qed.

(** A loop whose body adds the artists [g a] for the element [a] adds,
    over the whole list, the artists of all elements in order. *)
Lemma for_adds {A : Type} (g : A -> list Artist) (body : A -> M unit)
      (w : World) :
  (forall a f, body a (alloc f w) = (alloc (with_added (g a) f) w, Return tt)) ->
  forall l f,
    for_ l body (alloc f w) = (alloc (with_added (flat_map g l) f) w, Return tt).
Proof.
  intros Hbody. induction l as [|a l IH]; intros f.
  - simpl. rewrite with_added_nil. reflexivity.
  - cbn [for_ flat_map]. unfold bind. rewrite Hbody, IH, with_added_app. reflexivity.
Qed.

(** X6: over any list of components, the chip loop of the current
    script adds for every component, in the order of the list, its box
    and then its label, and nothing else; it never fails, and over the
    empty list it leaves the figure as it is. *)
Theorem current_chip_loop_adds (w : World) (f : Figure)
        (components : list (string * Q * Q)) :
  current_chip_loop (List.length (heap w)) components (alloc f w) =
    (alloc (with_added (flat_map current_chip components) f) w, Return tt) /\
  current_chip_loop (List.length (heap w)) [] (alloc f w) = (alloc f w, Return tt).
Proof.
  split.
  - unfold current_chip_loop. apply for_adds.
    intros [[comp x] y] f0. unfold ax_add_patch, ax_text.
    rewrite bind_on_axes_alloc, on_axes_alloc.
    rewrite !fig_add_with_added, !with_added_app. reflexivity.
  - reflexivity.
Qed.

(** X7: over any list of components, the Java chip loop of the proposed
    script adds for every component, in order, its box, its label and
    its '(UNCHANGED)' tag, three artists each, and never fails. *)
Theorem java_chip_loop_adds (w : World) (f : Figure)
        (components : list (string * Q * Q)) :
  java_chip_loop (List.length (heap w)) components (alloc f w) =
    (alloc (with_added (flat_map java_chip components) f) w, Return tt) /\
  List.length (flat_map java_chip components) = (3 * List.length components)%nat.
Proof.
  split.
  - unfold java_chip_loop. apply for_adds.
    intros [[comp x] y] f0. unfold ax_add_patch, ax_text.
    rewrite bind_on_axes_alloc, bind_on_axes_alloc, on_axes_alloc.
    rewrite !fig_add_with_added, !with_added_app. reflexivity.
  - induction components as [|[[comp x] y] l IH]; [reflexivity|].
    cbn [flat_map java_chip List.length app]. rewrite IH. lia.
Qed.

(** X8: over any list of components, the Rust chip loop of the proposed
    script adds for every component, in order, its box and its label,
    the label carrying the component string unchanged. *)
Theorem rust_chip_loop_adds (w : World) (f : Figure)
        (components : list (string * Q * Q)) :
  rust_chip_loop (List.length (heap w)) components (alloc f w) =
    (alloc (with_added (flat_map rust_chip components) f) w, Return tt) /\
  Forall (fun c => text_s (Proposed.rust_comp_label (fst (fst c)) (snd (fst c)) (snd c))
                   = fst (fst c)) components.
Proof.
  split.
  - unfold rust_chip_loop. apply for_adds.
    intros [[comp x] y] f0. unfold ax_add_patch, ax_text.
    rewrite bind_on_axes_alloc, on_axes_alloc.
    rewrite !fig_add_with_added, !with_added_app. reflexivity.
  - apply Forall_forall. intros c _. reflexivity.
Qed.

Lemma flat_map_single {A B : Type} (g : A -> B) (l : list A) :
  flat_map (fun a => [g a]) l = map g l.
Proof. induction l as [|a l IH]; simpl; congruence. Qed.

(** X9: over any list of entries, the loop over [enumerate] adds one
    bullet text per entry, in order, the entry at position [i] at
    height 7.2 - 0.2 i. *)
Theorem ipc_loop_adds (w : World) (f : Figure) (components : list string) :
  ipc_loop (List.length (heap w)) components (alloc f w) =
    (alloc (with_added (map ipc_bullet (enumerate components)) f) w, Return tt).
Proof.
  unfold ipc_loop.
  rewrite (for_adds (fun ic => [ipc_bullet ic])).
  - rewrite flat_map_single. reflexivity.
  - intros [i comp] f0. unfold ax_text. rewrite on_axes_alloc. reflexivity.
Qed.

Lemma inject_nat_le (i n : nat) : inject_Z (Z.of_nat i) <= inject_Z (Z.of_nat n) <-> (i <= n)%nat.
Proof. rewrite <- Zle_Qle. lia. Qed.

(** X10: the bullet at position [i] is anchored inside the rectangle
    of the IPC box exactly for the positions 0 to 6: the loop keeps up
    to seven entries inside the box, and each bullet lies 0.2 below
    the one before. *)
Theorem ipc_bullet_bounds (i : nat) (comp : string) :
  (match ipc_bullet (i, comp) with
   | TextArtist t =>
       point_within 5.25 (5.25 + 1.5) 6 (6 + 2) (text_anchor t) = true
   | _ => False
   end <-> (i <= 6)%nat) /\
  box_rect Proposed.ipc_box = mkRect 5.25 6 1.5 2 /\
  match ipc_bullet (i, comp), ipc_bullet (S i, comp) with
  | TextArtist t, TextArtist t' => text_y t' == text_y t - 0.2
  | _, _ => False
  end.
Proof.
  split; [|split; [reflexivity|]].
  - unfold ipc_bullet, text_anchor, point_within. cbn [fst snd text_x text_y].
    change 6%Q with (inject_Z (Z.of_nat 6)) at 4.
    rewrite <- inject_nat_le.
    rewrite !andb_true_iff, !Qle_bool_iff.
    change (inject_Z (Z.of_nat 6)) with 6%Q.
    assert (H0 : 0 <= inject_Z (Z.of_nat i))
      by (change 0%Q with (inject_Z 0); rewrite <- Zle_Qle; lia).
    split.
    + intros [[[_ _] Hlo] _]. lra.
    + intros Hi. repeat split; lra.
  - unfold ipc_bullet. cbn [fst snd text_y].
    rewrite Nat2Z.inj_succ. unfold Z.succ. rewrite inject_Z_plus. ring.
Qed.

(** X11: wherever a Java chip is placed, its '(UNCHANGED)' tag and its
    label are both anchored inside the rectangle of the chip, the tag
    0.1 above the lower edge and the label at mid height. *)
Theorem java_tag_inside_chip (x y : Q) :
  let r := box_rect (Proposed.java_comp_box x y) in
  point_within (rx r) (rx r + rw r) (ry r) (ry r + rh r)
               (text_anchor (Proposed.java_comp_tag x y)) = true /\
  point_within (rx r) (rx r + rw r) (ry r) (ry r + rh r)
               (text_anchor (Proposed.java_comp_label "" x y)) = true /\
  snd (text_anchor (Proposed.java_comp_tag x y)) - ry r == 0.1 /\
  snd (text_anchor (Proposed.java_comp_label "" x y)) - ry r == rh r / 2.
Proof.
  cbv zeta. unfold point_within, text_anchor, box_rect. simpl.
  rewrite !andb_true_iff, !Qle_bool_iff.
  repeat split; try lra; field.
Qed.

(** ** What the scripts leave alone *)

Lemma lookup_other (p q : string) (i : Image) (fs : list (string * Image)) :
  p <> q -> lookup_file p (write_file q i fs) = lookup_file p fs.
Proof.
  intros Hpq. unfold write_file. simpl.
  destruct (String.eqb_spec p q); [contradiction|reflexivity].
Qed.

Lemma firstn_own_length {A : Type} (l l' : list A) :
  firstn (List.length l) (l ++ l') = l.
Proof. induction l as [|x l IH]; simpl; [destruct l'; reflexivity|congruence]. Qed.

(** X12: whether its export succeeds or fails, a script leaves every
    file at another path as it was, leaves every figure object that
    existed before untouched, does not change which paths can be
    written, and only ever appends to the output. *)
Theorem scripts_leave_the_rest (w : World) (p : string) :
  (p <> Current.output_path ->
   lookup_file p (files (fst (Current.main w))) = lookup_file p (files w)) /\
  (p <> Proposed.output_path ->
   lookup_file p (files (fst (Proposed.main w))) = lookup_file p (files w)) /\
  firstn (List.length (heap w)) (heap (fst (Current.main w))) = heap w /\
  firstn (List.length (heap w)) (heap (fst (Proposed.main w))) = heap w /\
  writable (fst (Current.main w)) = writable w /\
  writable (fst (Proposed.main w)) = writable w /\
  firstn (List.length (stdout w)) (stdout (fst (Current.main w))) = stdout w /\
  firstn (List.length (stdout w)) (stdout (fst (Proposed.main w))) = stdout w.
Proof.
  rewrite run_current, run_proposed.
  destruct (writable w Current.output_path), (writable w Proposed.output_path);
    unfold exported, alloc; cbn [fst files heap writable stdout];
    repeat split;
    try (intros Hp; apply lookup_other; exact Hp);
    try apply firstn_own_length; try apply firstn_all; try reflexivity.
Qed.

Lemma scripts_leave_the_rest_witness :
  lookup_file "notes.png"
    (files (fst (Current.main
                   (mkWorld [] [] [("notes.png", proposed_image)] all_writable [])))) =
  Some proposed_image.
Proof.
  destruct (scripts_leave_the_rest
              (mkWorld [] [] [("notes.png", proposed_image)] all_writable [])
              "notes.png") as [H _].
  rewrite H; [reflexivity|]. vm_compute. discriminate.
Defined.

Lemma writable_exported (path line : string) (kws : list Kw) (f : Figure) (w : World) :
  writable (exported path line kws f w) = writable w.
Proof. reflexivity. Qed.

(** X13: the two scripts do not disturb each other.  Where both output
    paths can be written, running them one after the other, in either
    order, leaves both images in place, each at its own path, leaves
    open exactly the figures that were open before, and prints the two
    confirmation lines in the order of the runs. *)
Theorem scripts_independent (w : World)
  (Hc : writable w Current.output_path = true)
  (Hp : writable w Proposed.output_path = true) :
  let w12 := fst (Proposed.main (fst (Current.main w))) in
  let w21 := fst (Current.main (fst (Proposed.main w))) in
  lookup_file Current.output_path (files w12) = Some current_image /\
  lookup_file Proposed.output_path (files w12) = Some proposed_image /\
  lookup_file Current.output_path (files w21) = Some current_image /\
  lookup_file Proposed.output_path (files w21) = Some proposed_image /\
  open_figs w12 = open_figs w /\ open_figs w21 = open_figs w /\
  stdout w12 = (stdout w ++ [Current.confirmation; Proposed.confirmation])%list /\
  stdout w21 = (stdout w ++ [Proposed.confirmation; Current.confirmation])%list.
Proof.
  cbv zeta.
  assert (H1 : fst (Current.main w) =
               exported Current.output_path Current.confirmation
                        [dpi 300; bbox_inches "tight"] current_figure w)
    by (rewrite run_current, Hc; reflexivity).
  assert (H2 : fst (Proposed.main w) =
               exported Proposed.output_path Proposed.confirmation
                        [dpi 300; bbox_inches "tight"] proposed_figure w)
    by (rewrite run_proposed, Hp; reflexivity).
  rewrite H1, H2, run_current, run_proposed.
  rewrite !writable_exported, Hc, Hp.
  unfold exported. cbn [fst files open_figs stdout].
  assert (Hne : Current.output_path <> Proposed.output_path)
    by (vm_compute; discriminate).
  repeat split;
    try apply lookup_written;
    try (rewrite lookup_other; [apply lookup_written|congruence]);
    try (rewrite <- app_assoc; reflexivity).
Qed.

Lemma scripts_independent_witness :
  lookup_file Current.output_path
    (files (fst (Proposed.main (fst (Current.main (empty_world all_writable)))))) =
    Some current_image /\
  lookup_file Proposed.output_path
    (files (fst (Proposed.main (fst (Current.main (empty_world all_writable)))))) =
    Some proposed_image.
Proof.
  destruct (scripts_independent (empty_world all_writable) eq_refl eq_refl)
    as (H1 & H2 & _).
  split; [exact H1|exact H2].
Defined.

(** ** Layout *)

(** X14: the layout is nested and free of overlap.  In both diagrams
    the outline of every chip lies inside the rectangle of the
    container of its loop, the layer containers of the current diagram
    lie inside its main container, no two chips overlap, and no two
    containers standing side by side overlap. *)
Theorem chips_nested_and_apart :
  Forall (fun c => rect_inside (chip_outline Current.comp_box c)
                               (box_rect Current.mitm_box) = true)
         Current.mitm_components /\
  Forall (fun c => rect_inside (chip_outline Current.comp_box c)
                               (box_rect Current.audit_box) = true)
         Current.audit_components /\
  Forall (fun b => rect_inside (box_outline b) (box_rect Current.main_box) = true)
         [Current.mitm_box; Current.audit_box; Current.cred_box] /\
  Forall (fun c => rect_inside (chip_outline Proposed.rust_comp_box c)
                               (box_rect Proposed.rust_box) = true)
         Proposed.rust_components /\
  Forall (fun c => rect_inside (chip_outline Proposed.java_comp_box c)
                               (box_rect Proposed.java_box) = true)
         Proposed.java_components /\
  pairwise_disjoint
    (map (chip_outline Current.comp_box)
         (Current.mitm_components ++ Current.audit_components)) = true /\
  pairwise_disjoint
    (map (chip_outline Proposed.rust_comp_box) Proposed.rust_components ++
     map (chip_outline Proposed.java_comp_box) Proposed.java_components) = true /\
  pairwise_disjoint
    (map box_outline [Current.mitm_box; Current.audit_box; Current.cred_box]) = true /\
  pairwise_disjoint
    (map box_outline [Proposed.rust_box; Proposed.ipc_box; Proposed.java_box]) = true.
Proof.
  repeat split;
    try (apply Forall_forall; apply forallb_forall; vm_compute; reflexivity);
    vm_compute; reflexivity.
Qed.

(** X15: in both diagrams every arrow starts or ends exactly on the
    border of the rectangle of one of the boxes, and the dashed
    separation line is the only connector that does not. *)
Theorem arrows_meet_boxes :
  Forall (fun c => touches_a_box (boxes current_figure) c = true)
         (connectors current_figure) /\
  Forall (fun c => touches_a_box (boxes proposed_figure) c =
                   (get_arrowstyle c =? "->"))
         (connectors proposed_figure) /\
  touches_a_box (boxes proposed_figure) Proposed.separation_line = false.
Proof.
  split; [|split].
  - apply Forall_forall. apply forallb_forall. vm_compute. reflexivity.
  - apply Forall_forall. intros c Hc. rewrite proposed_connectors in Hc.
    simpl in Hc.
    repeat (destruct Hc as [Hc|Hc]; [subst c; vm_compute; reflexivity|]).
    destruct Hc.
  - vm_compute. reflexivity.
Qed.
